(** * reader_cam: the capture / recognition / speech loop, verified

    A shallow embedding of

    - [services/geminiService.ts]: the text recognition client,
    - [App.tsx]: the React component that owns the session (capture source,
      poll timer, speech, recorder),
    - [scripts/htmlToJson.ts]: the stand-alone HTML to JSON converter,

    followed by the properties proved about them.

    Conventions.  A JavaScript string is its sequence of UTF-16 code units.
    A React callback is a closure over the values of the render that created
    it: every callback of [App] takes that render (a [ReactState]) as its
    first argument and acts on the live [State] through the setters and the
    refs, exactly as the [useCallback] dependency lists of the source say.
    Browser objects with identity (media streams, recorders, interval timers)
    live in finite maps keyed by a handle. *)

From Stdlib Require Import String Ascii NArith List Bool Lia.
From Stdlib Require QArith.
From stdpp Require Import base option list gmap.
Import ListNotations.

#[local] Set Warnings "-register-all".
Local Open Scope N_scope.

(** ** JavaScript strings *)

Module JsStr.

(** A string is a list of UTF-16 code units. *)
Definition JsString : Type := list N.

(** An ASCII literal as a JavaScript string. *)
Definition js (s : string) : JsString :=
  map N_of_ascii (list_ascii_of_string s).

Definition empty : JsString := [].

(** ECMAScript [WhiteSpace] and [LineTerminator] code points, the characters
    [String.prototype.trim] strips.  All of them are in the basic plane, so
    the test on code units is exact. *)
Definition is_whitespace (c : N) : bool :=
  (9 <=? c) && (c <=? 13)
  || (c =? 32) || (c =? 160) || (c =? 5760)
  || (8192 <=? c) && (c <=? 8202)
  || (c =? 8232) || (c =? 8233) || (c =? 8239) || (c =? 8287)
  || (c =? 12288) || (c =? 65279).

Fixpoint trimStart (s : JsString) : JsString :=
  match s with
  | [] => []
  | c :: s' => if is_whitespace c then trimStart s' else s
  end.

Definition trimEnd (s : JsString) : JsString := rev (trimStart (rev s)).

(** [s.trim()] *)
Definition trim (s : JsString) : JsString := trimEnd (trimStart s).

(** The string is empty or its first character is not white space. *)
Definition starts_clean (s : JsString) : Prop :=
  match s with
  | [] => True
  | c :: _ => is_whitespace c = false
  end.

(** The string is empty or its last character is not white space. *)
Definition ends_clean (s : JsString) : Prop := starts_clean (rev s).

(** Every character of the string is white space. *)
Definition all_whitespace (s : JsString) : Prop :=
  Forall (fun c => is_whitespace c = true) s.

Fixpoint eqb (s t : JsString) : bool :=
  match s, t with
  | [], [] => true
  | a :: s', b :: t' => (a =? b) && eqb s' t'
  | _, _ => false
  end.

(** JavaScript truthiness of a string: non-empty. *)
Definition truthy (s : JsString) : bool :=
  match s with [] => false | _ :: _ => true end.

Fixpoint startsWith (s p : JsString) {struct p} : bool :=
  match p with
  | [] => true
  | a :: p' =>
      match s with
      | [] => false
      | b :: s' => (a =? b) && startsWith s' p'
      end
  end.

(** [s.includes(needle)] *)
Fixpoint includes (s needle : JsString) : bool :=
  startsWith s needle
  || match s with
     | [] => false
     | _ :: s' => includes s' needle
     end.

End JsStr.

Import JsStr.

(** ** JavaScript completions *)

(** What a [throw] can carry: an [Error] object with its message, a
    string, or any other value (for which [instanceof Error] is false).  An
    [Error] whose [message] is not a string matters only where the message
    is inspected, in the recognition client, and is modelled there
    ([Gemini.RejectedOdd]). *)
Inductive Throwable : Type :=
| JsError (message : JsString)
| NonError.

(** The outcome of a call (or of an awaited promise): a value or a throw. *)
Inductive Completion (A : Type) : Type :=
| Return (a : A)
| Throw (t : Throwable).
Arguments Return {A} a.
Arguments Throw {A} t.

(** ** services/geminiService.ts *)

Module Gemini.

Definition TEXT_MODEL : JsString := js "gemini-2.5-flash-preview-04-17".

(** The two parts of the request and the request itself. *)
Record InlineData := { mimeType : JsString; data : JsString }.
Inductive Part := ImagePart (inlineData : InlineData) | TextPart (text : JsString).
Record Request := {
  model : JsString;
  parts : list Part;
  thinkingBudget : N
}.

(** What evaluating an expression on a value that need not be a string
    gives: a value, or a [TypeError] with the engine's message. *)
Inductive Evaluated (A : Type) : Type :=
| Value (a : A)
| TypeError (message : JsString).
Arguments Value {A} a.
Arguments TypeError {A} message.

(** What [ai.models.generateContent] does with a request: it resolves to a
    response whose [text] is a string or [undefined], or it rejects.  The
    rejection is an [Error] with a string message or a value that is no
    [Error] ([Rejected]), or an [Error] whose [message] is not a string
    ([RejectedOdd]).  Of such a message the client observes two things:
    what [message.includes("API key not valid")] gives (for [undefined],
    [null] or a number a [TypeError]; for an array the truth value of the
    search) and what the template literal of line 57 makes of it (a string,
    or a [TypeError] as for an array that holds a symbol). *)
Inductive GenerateOutcome :=
| Responded (text : option JsString)
| Rejected (t : Throwable)
| RejectedOdd (includes_ : Evaluated bool) (interpolated : Evaluated JsString).

(** What the [catch] block of line 51 can receive. *)
Inductive Caught :=
| Thrown (t : Throwable)
| ThrownOdd (includes_ : Evaluated bool) (interpolated : Evaluated JsString).

Definition MSG_NOT_CONFIGURED : JsString :=
  js "Gemini API Key is not configured. Please set the API_KEY environment variable.".
Definition MSG_INVALID_KEY : JsString :=
  js "Invalid Gemini API Key. Please check your API_KEY environment variable.".
Definition MSG_API_ERROR_PREFIX : JsString := js "Gemini API error: ".
Definition MSG_UNKNOWN : JsString :=
  js "An unknown error occurred while communicating with the Gemini API.".
Definition API_KEY_NOT_VALID : JsString := js "API key not valid".

Definition BASE_PROMPT : JsString :=
  js "Analyze this image and extract any visible text. Present the extracted text as a single string. If multiple distinct text blocks are found, concatenate them with a space in between. If no text is found, return an empty string.".

(** [promptText] as lines 31-34 build it ([\n] is code unit 10). *)
Definition promptText (customPrompt : option JsString) : JsString :=
  match customPrompt with
  | Some p =>
      if truthy p && negb (eqb (trim p) empty)
      then BASE_PROMPT ++ [10; 10] ++ js "Additional user instructions: " ++ trim p
      else BASE_PROMPT
  | None => BASE_PROMPT
  end.

Definition request (base64ImageData : JsString) (customPrompt : option JsString) : Request :=
  {| model := TEXT_MODEL;
     parts := [ImagePart {| mimeType := js "image/jpeg"; data := base64ImageData |};
               TextPart (promptText customPrompt)];
     thinkingBudget := 0 |}.

Section Client.

(** [process.env.API_KEY], read once when the module loads. *)
Variable apiKey : option JsString.
(** The message of the [TypeError] the engine raises for [undefined.trim()]. *)
Variable undefinedTrimMessage : JsString.
(** The remote service. *)
Variable generateContent : Request -> GenerateOutcome.

(** [!apiKey] *)
Definition apiKey_missing : bool :=
  match apiKey with
  | None => true
  | Some k => negb (truthy k)
  end.

(** The body of the [try] block: the value it returns, or what reaches the
    [catch]. *)
Definition try_body (base64ImageData : JsString) (customPrompt : option JsString)
  : JsString + Caught :=
  match generateContent (request base64ImageData customPrompt) with
  | Responded (Some identifiedText) => inl (trim identifiedText)
  | Responded None => inr (Thrown (JsError undefinedTrimMessage))
  | Rejected t => inr (Thrown t)
  | RejectedOdd includes_ interpolated => inr (ThrownOdd includes_ interpolated)
  end.

(** The [catch] block, by what leaves it: the fresh [Error] of line 55, 57
    or 59, or the [TypeError] that [error.message.includes] (line 54) or the
    template literal (line 57) raises on a message that is not a string.
    The block has no handler of its own, so that [TypeError] leaves the
    function as it is. *)
Definition catch_block (error : Caught) : Throwable :=
  match error with
  | Thrown (JsError message) =>
      if includes message API_KEY_NOT_VALID
      then JsError MSG_INVALID_KEY
      else JsError (MSG_API_ERROR_PREFIX ++ message)
  | Thrown NonError => JsError MSG_UNKNOWN
  | ThrownOdd (TypeError raised) _ => JsError raised
  | ThrownOdd (Value true) _ => JsError MSG_INVALID_KEY
  | ThrownOdd (Value false) (Value text) => JsError (MSG_API_ERROR_PREFIX ++ text)
  | ThrownOdd (Value false) (TypeError raised) => JsError raised
  end.

Definition identifyTextInImage (base64ImageData : JsString) (customPrompt : option JsString)
  : Completion JsString :=
  if apiKey_missing then Throw (JsError MSG_NOT_CONFIGURED)
  else
    match try_body base64ImageData customPrompt with
    | inl t => Return t
    | inr error => Throw (catch_block error)
    end.

End Client.

(** The three error classes of the recognition client, read off the message
    of the [Error] that escapes. *)
Inductive RecognitionError := invalid_credentials | upstream_error | unknown.

Definition classify (t : Throwable) : option RecognitionError :=
  match t with
  | JsError m =>
      if eqb m MSG_NOT_CONFIGURED || eqb m MSG_INVALID_KEY then Some invalid_credentials
      else if startsWith m MSG_API_ERROR_PREFIX then Some upstream_error
      else if eqb m MSG_UNKNOWN then Some unknown
      else None
  | NonError => None
  end.

End Gemini.

(** ** scripts/htmlToJson.ts *)

Module HtmlToJson.

(** The [type] of a domhandler [Element]: ['tag'], ['script'] or ['style']. *)
Inductive ElementType := Tag | Script | Style.

(** A domhandler node.  [Element]s carry a name, attributes (in insertion
    order) and children; [Text], [Comment] and [Directive] carry data;
    [CDATA] and [Document] have children only. *)
Inductive Node :=
| Element (type : ElementType) (name : JsString)
          (attribs : list (JsString * JsString)) (children : list Node)
| Text (data : JsString)
| Comment (data : JsString)
| Directive (name data : JsString)
| CDATA (children : list Node)
| Document (children : list Node).

(** The JSON values the script builds. *)
Inductive Json :=
| JString (s : JsString)
| JArray (items : list Json)
| JObject (fields : list (JsString * Json)).

Definition elementTypeName (t : ElementType) : JsString :=
  match t with
  | Tag => js "tag"
  | Script => js "script"
  | Style => js "style"
  end.

(** [node.type] *)
Definition nodeType (n : Node) : JsString :=
  match n with
  | Element t _ _ _ => elementTypeName t
  | Text _ => js "text"
  | Comment _ => js "comment"
  | Directive _ _ => js "directive"
  | CDATA _ => js "cdata"
  | Document _ => js "root"
  end.

Definition attribsToJson (attribs : list (JsString * JsString)) : Json :=
  JObject (map (fun kv => (fst kv, JString (snd kv))) attribs).

Fixpoint nodeToJson (node : Node) : Json :=
  match node with
  | Element t name attribs children =>
      JObject [(js "type", JString (elementTypeName t));
               (js "name", JString name);
               (js "attribs", attribsToJson attribs);
               (js "children", JArray (map nodeToJson children))]
  | Text data => JObject [(js "type", JString (js "text")); (js "data", JString data)]
  | other => JObject [(js "type", JString (nodeType other))]
  end.

(** What standard input delivers, in order. *)
Inductive StdinEvent :=
| OnData (chunk : JsString)
| OnEnd
| OnError (err : Throwable).

(** The promise of lines 29-35: it resolves with the accumulated data at the
    first ['end'], rejects at the first ['error'], and stays pending when
    neither arrives. *)
Fixpoint readStdin (data : JsString) (events : list StdinEvent)
  : option (Completion JsString) :=
  match events with
  | [] => None
  | OnData chunk :: rest => readStdin (data ++ chunk) rest
  | OnEnd :: _ => Some (Return data)
  | OnError err :: _ => Some (Throw err)
  end.

(** What a run of the script leaves behind; [exitCode = None] while the
    script is still waiting for its input. *)
Record Run := {
  stdout : list JsString;
  stderr : list Throwable;
  exitCode : option N
}.

Section Script.

(** htmlparser2's [parseDocument]: the children of the document it builds. *)
Variable parseDocument : JsString -> list Node.
(** [JSON.stringify(json, null, 2)] *)
Variable stringify : Json -> JsString.
(** The message of the [TypeError] Node raises for a missing callback
    ([ERR_INVALID_CALLBACK], [ERR_INVALID_ARG_TYPE] in later versions). *)
Variable missingCallbackMessage : JsString.

(** [fs.readFile(path, 'utf8')] as line 27 calls it.  [fs] is the
    callback-style module ([import * as fs from 'fs']), whose
    [readFile(path, options, callback)] requires the callback: called with
    two arguments it throws a [TypeError] before the file is touched,
    whatever the path names. *)
Definition fs_readFile_utf8 (path : JsString) : Completion JsString :=
  Throw (JsError missingCallbackMessage).

(** Lines 25-36: the HTML text [main] goes on with; [argv2] is
    [process.argv[2]].  [None] while the promise on standard input is
    pending. *)
Definition readInput (argv2 : option JsString) (stdin : list StdinEvent)
  : option (Completion JsString) :=
  match argv2 with
  | Some path =>
      if truthy path then Some (fs_readFile_utf8 path)
      else readStdin empty stdin
  | None => readStdin empty stdin
  end.

(** [main().catch(err => { console.error(err); process.exit(1) })] *)
Definition main (argv2 : option JsString) (stdin : list StdinEvent) : Run :=
  match readInput argv2 stdin with
  | None => {| stdout := []; stderr := []; exitCode := None |}
  | Some (Throw err) => {| stdout := []; stderr := [err]; exitCode := Some 1 |}
  | Some (Return html) =>
      {| stdout := [stringify (JArray (map nodeToJson (parseDocument html)))];
         stderr := [];
         exitCode := Some 0 |}
  end.

End Script.

End HtmlToJson.

(** ** App.tsx *)

Module App.

Inductive ActiveInputType := camera | screen | none.

(** Handles of the browser objects that are shared by reference. *)
Definition StreamId : Type := nat.
Definition TimerId : Type := positive.

Record Voice := { voiceURI : JsString; voiceName : JsString; voiceLang : JsString }.

Record Blob := { blobSize : N; blobType : JsString }.

(** An object URL stands for the blob it was created for. *)
Inductive ObjectURL := createObjectURL (blob : Blob).

(** The values of the [useState] hooks, in the order of the source.  A value
    of this type is one render of the component: what the callbacks created
    by that render close over.  ([isAdvancedPanelOpen] and
    [copiedConfirmation] only drive the presentation and are left out.)
    [speechRate] is a JavaScript number; it is only copied and compared. *)
Record ReactState := mkReact {
  isCameraOn : bool;
  isScreenSharingOn : bool;
  activeInputType : ActiveInputType;
  isProcessingAI : bool;
  currentSpokenText : JsString;
  lastDetectedTextByAI : JsString;
  error : option JsString;
  stream : option StreamId;
  customPromptText : JsString;
  isRecording : bool;
  videoRecordUrl : option ObjectURL;
  recordingError : option JsString;
  speechRate : QArith_base.Q;
  availableVoices : list Voice;
  selectedVoiceURI : option JsString
}.

Inductive TrackKind := VideoTrack | AudioTrack.
Inductive TrackState := live | ended.

(** A [MediaStreamTrack]; [onended] holds the render whose handler was
    attached (line 216), if any. *)
Record Track := {
  kind : TrackKind;
  trackState : TrackState;
  onended : option ReactState
}.

(** The [<video>] element behind [videoRef]; [frame] is the JPEG encoding
    (base64) of the picture it currently shows. *)
Record Video := {
  srcObject : option StreamId;
  readyState : N;
  videoWidth : N;
  videoHeight : N;
  frame : JsString
}.

Definition HAVE_METADATA : N := 1.

(** The hidden [<canvas>] behind [canvasRef]; [context2d] tells whether
    [getContext('2d')] yields a context. *)
Record Canvas := { width : N; height : N; context2d : bool }.

Record Utterance := {
  text : JsString;
  rate : QArith_base.Q;
  voice : option Voice
}.

Inductive RecordingState := inactive | recording | paused.

(** The [MediaRecorder] behind [mediaRecorderRef].  Its three handlers
    (lines 276-291) close over [supportedMimeType] only, kept as
    [recMimeType]. *)
Record MediaRecorder := {
  recStream : StreamId;
  recMimeType : JsString;
  recState : RecordingState
}.

(** An [identifyTextInImage] call that has not settled: the render of the
    [captureFrameAndProcess] that awaits it, and its two arguments. *)
Record PendingCall := {
  awaitedBy : ReactState;
  base64ImageData : JsString;
  customPrompt : JsString
}.

(** The session: React state, the refs, and the browser objects the
    component works on.  [speechQueue] is the queue of
    [window.speechSynthesis] (its head is the utterance being spoken);
    [timers] maps each running interval to its callback, a
    [captureFrameAndProcess] closure named by its render. *)
Record State := mkState {
  react : ReactState;
  video : option Video;
  canvas : option Canvas;
  processingIntervalRef : option TimerId;
  mediaRecorderRef : option MediaRecorder;
  recordedChunksRef : list Blob;
  streams : gmap StreamId (list Track);
  nextStream : StreamId;
  timers : gmap TimerId ReactState;
  nextTimer : TimerId;
  speechQueue : list Utterance;
  pending : list PendingCall
}.

(** *** Setters *)

Definition upd_react (f : ReactState -> ReactState) (s : State) : State :=
  mkState (f (react s)) (video s) (canvas s) (processingIntervalRef s)
    (mediaRecorderRef s) (recordedChunksRef s) (streams s) (nextStream s) (timers s)
    (nextTimer s) (speechQueue s) (pending s).

Definition setIsCameraOn (v : bool) : State -> State :=
  upd_react (fun r =>
    mkReact v (isScreenSharingOn r) (activeInputType r) (isProcessingAI r)
      (currentSpokenText r) (lastDetectedTextByAI r) (error r) (stream r)
      (customPromptText r) (isRecording r) (videoRecordUrl r) (recordingError r)
      (speechRate r) (availableVoices r) (selectedVoiceURI r)).

Definition setIsScreenSharingOn (v : bool) : State -> State :=
  upd_react (fun r =>
    mkReact (isCameraOn r) v (activeInputType r) (isProcessingAI r)
      (currentSpokenText r) (lastDetectedTextByAI r) (error r) (stream r)
      (customPromptText r) (isRecording r) (videoRecordUrl r) (recordingError r)
      (speechRate r) (availableVoices r) (selectedVoiceURI r)).

Definition setActiveInputType (v : ActiveInputType) : State -> State :=
  upd_react (fun r =>
    mkReact (isCameraOn r) (isScreenSharingOn r) v (isProcessingAI r)
      (currentSpokenText r) (lastDetectedTextByAI r) (error r) (stream r)
      (customPromptText r) (isRecording r) (videoRecordUrl r) (recordingError r)
      (speechRate r) (availableVoices r) (selectedVoiceURI r)).

Definition setIsProcessingAI (v : bool) : State -> State :=
  upd_react (fun r =>
    mkReact (isCameraOn r) (isScreenSharingOn r) (activeInputType r) v
      (currentSpokenText r) (lastDetectedTextByAI r) (error r) (stream r)
      (customPromptText r) (isRecording r) (videoRecordUrl r) (recordingError r)
      (speechRate r) (availableVoices r) (selectedVoiceURI r)).

Definition setCurrentSpokenText (v : JsString) : State -> State :=
  upd_react (fun r =>
    mkReact (isCameraOn r) (isScreenSharingOn r) (activeInputType r) (isProcessingAI r)
      v (lastDetectedTextByAI r) (error r) (stream r) (customPromptText r)
      (isRecording r) (videoRecordUrl r) (recordingError r) (speechRate r)
      (availableVoices r) (selectedVoiceURI r)).

Definition setLastDetectedTextByAI (v : JsString) : State -> State :=
  upd_react (fun r =>
    mkReact (isCameraOn r) (isScreenSharingOn r) (activeInputType r) (isProcessingAI r)
      (currentSpokenText r) v (error r) (stream r) (customPromptText r) (isRecording r)
      (videoRecordUrl r) (recordingError r) (speechRate r) (availableVoices r)
      (selectedVoiceURI r)).

Definition setError (v : option JsString) : State -> State :=
  upd_react (fun r =>
    mkReact (isCameraOn r) (isScreenSharingOn r) (activeInputType r) (isProcessingAI r)
      (currentSpokenText r) (lastDetectedTextByAI r) v (stream r) (customPromptText r)
      (isRecording r) (videoRecordUrl r) (recordingError r) (speechRate r)
      (availableVoices r) (selectedVoiceURI r)).

Definition setStream (v : option StreamId) : State -> State :=
  upd_react (fun r =>
    mkReact (isCameraOn r) (isScreenSharingOn r) (activeInputType r) (isProcessingAI r)
      (currentSpokenText r) (lastDetectedTextByAI r) (error r) v (customPromptText r)
      (isRecording r) (videoRecordUrl r) (recordingError r) (speechRate r)
      (availableVoices r) (selectedVoiceURI r)).

Definition setIsRecording (v : bool) : State -> State :=
  upd_react (fun r =>
    mkReact (isCameraOn r) (isScreenSharingOn r) (activeInputType r) (isProcessingAI r)
      (currentSpokenText r) (lastDetectedTextByAI r) (error r) (stream r)
      (customPromptText r) v (videoRecordUrl r) (recordingError r) (speechRate r)
      (availableVoices r) (selectedVoiceURI r)).

Definition setVideoRecordUrl (v : option ObjectURL) : State -> State :=
  upd_react (fun r =>
    mkReact (isCameraOn r) (isScreenSharingOn r) (activeInputType r) (isProcessingAI r)
      (currentSpokenText r) (lastDetectedTextByAI r) (error r) (stream r)
      (customPromptText r) (isRecording r) v (recordingError r) (speechRate r)
      (availableVoices r) (selectedVoiceURI r)).

Definition setRecordingError (v : option JsString) : State -> State :=
  upd_react (fun r =>
    mkReact (isCameraOn r) (isScreenSharingOn r) (activeInputType r) (isProcessingAI r)
      (currentSpokenText r) (lastDetectedTextByAI r) (error r) (stream r)
      (customPromptText r) (isRecording r) (videoRecordUrl r) v (speechRate r)
      (availableVoices r) (selectedVoiceURI r)).

Definition set_video (v : option Video) (s : State) : State :=
  mkState (react s) v (canvas s) (processingIntervalRef s) (mediaRecorderRef s)
    (recordedChunksRef s) (streams s) (nextStream s) (timers s) (nextTimer s)
    (speechQueue s) (pending s).

Definition set_canvas (v : option Canvas) (s : State) : State :=
  mkState (react s) (video s) v (processingIntervalRef s) (mediaRecorderRef s)
    (recordedChunksRef s) (streams s) (nextStream s) (timers s) (nextTimer s)
    (speechQueue s) (pending s).

Definition set_processingIntervalRef (v : option TimerId) (s : State) : State :=
  mkState (react s) (video s) (canvas s) v (mediaRecorderRef s) (recordedChunksRef s)
    (streams s) (nextStream s) (timers s) (nextTimer s) (speechQueue s) (pending s).

Definition set_mediaRecorderRef (v : option MediaRecorder) (s : State) : State :=
  mkState (react s) (video s) (canvas s) (processingIntervalRef s) v
    (recordedChunksRef s) (streams s) (nextStream s) (timers s) (nextTimer s)
    (speechQueue s) (pending s).

Definition set_recordedChunksRef (v : list Blob) (s : State) : State :=
  mkState (react s) (video s) (canvas s) (processingIntervalRef s) (mediaRecorderRef s)
    v (streams s) (nextStream s) (timers s) (nextTimer s) (speechQueue s) (pending s).

Definition set_streams (v : gmap StreamId (list Track)) (s : State) : State :=
  mkState (react s) (video s) (canvas s) (processingIntervalRef s) (mediaRecorderRef s)
    (recordedChunksRef s) v (nextStream s) (timers s) (nextTimer s) (speechQueue s)
    (pending s).

Definition set_nextStream (v : StreamId) (s : State) : State :=
  mkState (react s) (video s) (canvas s) (processingIntervalRef s) (mediaRecorderRef s)
    (recordedChunksRef s) (streams s) v (timers s) (nextTimer s) (speechQueue s)
    (pending s).

Definition set_timers (v : gmap TimerId ReactState) (s : State) : State :=
  mkState (react s) (video s) (canvas s) (processingIntervalRef s) (mediaRecorderRef s)
    (recordedChunksRef s) (streams s) (nextStream s) v (nextTimer s) (speechQueue s)
    (pending s).

Definition set_nextTimer (v : TimerId) (s : State) : State :=
  mkState (react s) (video s) (canvas s) (processingIntervalRef s) (mediaRecorderRef s)
    (recordedChunksRef s) (streams s) (nextStream s) (timers s) v (speechQueue s)
    (pending s).

Definition set_speechQueue (v : list Utterance) (s : State) : State :=
  mkState (react s) (video s) (canvas s) (processingIntervalRef s) (mediaRecorderRef s)
    (recordedChunksRef s) (streams s) (nextStream s) (timers s) (nextTimer s) v
    (pending s).

Definition set_pending (v : list PendingCall) (s : State) : State :=
  mkState (react s) (video s) (canvas s) (processingIntervalRef s) (mediaRecorderRef s)
    (recordedChunksRef s) (streams s) (nextStream s) (timers s) (nextTimer s)
    (speechQueue s) v.
(** *** The browser *)

(** What the component cannot decide itself: the API key the bundle was
    built with, and how the browser's constructors and codecs behave. *)
Record Platform := {
  API_KEY : option JsString;
  undefinedTrimMessage : JsString;
  isTypeSupported : JsString -> bool;
  utteranceThrows : bool;
  recorderConstructorThrows : bool;
  recorderStartThrows : bool
}.

(** [track.stop()] *)
Definition track_stop (t : Track) : Track :=
  {| kind := kind t; trackState := ended; onended := onended t |}.

(** [stream.getTracks().forEach(track => track.stop())] *)
Definition stop_tracks (id : StreamId) (s : State) : State :=
  set_streams (alter (map track_stop) id (streams s)) s.

(** The stream a granted [getUserMedia] / [getDisplayMedia] hands over. *)
Definition addStream (tracks : list Track) (s : State) : StreamId * State :=
  let id := nextStream s in
  (id, set_nextStream (S id) (set_streams (<[id := tracks]> (streams s)) s)).

Definition clearInterval (id : TimerId) (s : State) : State :=
  set_timers (delete id (timers s)) s.

(** [setInterval(callback, PROCESSING_INTERVAL)]: the browser keeps the
    function value it was given. *)
Definition setInterval (callback : ReactState) (s : State) : TimerId * State :=
  let id := nextTimer s in
  (id, set_nextTimer (Pos.succ id) (set_timers (<[id := callback]> (timers s)) s)).

Definition speechSynthesis_cancel (s : State) : State := set_speechQueue [] s.

Definition speechSynthesis_speak (u : Utterance) (s : State) : State :=
  set_speechQueue (speechQueue s ++ [u]) s.

(** [video.srcObject = v] *)
Definition set_srcObject (v : option StreamId) (s : State) : State :=
  match video s with
  | Some el =>
      set_video (Some {| srcObject := v; readyState := readyState el;
                         videoWidth := videoWidth el; videoHeight := videoHeight el;
                         frame := frame el |}) s
  | None => s
  end.

(** [canvas.toDataURL('image/jpeg').split(',')[1]] after the frame was drawn:
    the base64 payload, empty for a canvas without area (its data URL is
    [data:,]). *)
Definition toDataURL_payload (c : Canvas) (v : Video) : JsString :=
  if (width c =? 0) || (height c =? 0) then empty else frame v.

(** *** speakText (lines 66-83) and the effect that calls it (85-89) *)

Definition SPEECH_ERROR : JsString :=
  js "Could not read text aloud. Speech synthesis might not be supported or failed.".

Definition selectedVoice (r : ReactState) : option Voice :=
  match selectedVoiceURI r with
  | Some uri =>
      if truthy uri then find (fun v => eqb (voiceURI v) uri) (availableVoices r)
      else None
  | None => None
  end.

Definition newUtterance (r : ReactState) (t : JsString) : Utterance :=
  {| text := t; rate := speechRate r; voice := selectedVoice r |}.

Definition speakText (pf : Platform) (r : ReactState) (t : JsString) (s : State) : State :=
  if negb (truthy (trim t)) then s
  else
    let s := speechSynthesis_cancel s in
    if utteranceThrows pf then setError (Some SPEECH_ERROR) s
    else speechSynthesis_speak (newUtterance r t) s.

Definition option_eqb {A} (e : A -> A -> bool) (a b : option A) : bool :=
  match a, b with
  | Some x, Some y => e x y
  | None, None => true
  | _, _ => false
  end.

Definition voice_eqb (a b : Voice) : bool :=
  eqb (voiceURI a) (voiceURI b) && eqb (voiceName a) (voiceName b)
  && eqb (voiceLang a) (voiceLang b).

Fixpoint voices_eqb (a b : list Voice) : bool :=
  match a, b with
  | [], [] => true
  | x :: a', y :: b' => voice_eqb x y && voices_eqb a' b'
  | _, _ => false
  end.

(** Whether [useCallback] hands out the same [speakText] in two renders:
    its dependencies are [speechRate], [selectedVoiceURI], [availableVoices]. *)
Definition same_speakText (prev next : ReactState) : bool :=
  QArith_base.Qeq_bool (speechRate prev) (speechRate next)
  && option_eqb eqb (selectedVoiceURI prev) (selectedVoiceURI next)
  && voices_eqb (availableVoices prev) (availableVoices next).

(** The effect of lines 85-89, run when React commits the render that
    follows [prev]: it fires when [currentSpokenText] or [speakText] changed
    (a setter called with the value already held changes nothing). *)
Definition speech_effect (pf : Platform) (prev : ReactState) (s : State) : State :=
  let r := react s in
  if eqb (currentSpokenText prev) (currentSpokenText r) && same_speakText prev r then s
  else if truthy (currentSpokenText r) then speakText pf r (currentSpokenText r) s
  else s.

(** *** captureFrameAndProcess (lines 91-131) *)

Definition FAILED_TO_IDENTIFY : JsString := js "Failed to identify text from image.".

(** The condition of line 92.  [isProcessingAI] and [activeInputType] are
    the values the callback closed over; the refs are read live. *)
Definition early_return (r : ReactState) (s : State) : bool :=
  isProcessingAI r
  || match video s with None => true | Some _ => false end
  || match canvas s with None => true | Some _ => false end
  || match video s with Some v => readyState v <? HAVE_METADATA | None => false end
  || match activeInputType r with none => true | _ => false end.

(** Lines 92-111: from the call of the callback to the [await]. *)
Definition captureFrameAndProcess (r : ReactState) (s : State) : State :=
  if early_return r s then s
  else
    match video s, canvas s with
    | Some v, Some c =>
        let s := setIsProcessingAI true s in
        let s := setError None s in
        let c := {| width := videoWidth v; height := videoHeight v;
                    context2d := context2d c |} in
        let s := set_canvas (Some c) s in
        if context2d c then
          set_pending (pending s ++ [{| awaitedBy := r;
                                        base64ImageData := toDataURL_payload c v;
                                        customPrompt := customPromptText r |}]) s
        else setIsProcessingAI false s
    | _, _ => s
    end.

(** Lines 111-130: from the settled [await] to the end. *)
Definition captureFrameAndProcess_resume (r : ReactState)
    (result : Completion JsString) (s : State) : State :=
  let s :=
    match result with
    | Return identifiedText =>
        if truthy identifiedText && negb (eqb (trim identifiedText) empty) then
          let s := setLastDetectedTextByAI (trim identifiedText) s in
          if negb (eqb (trim identifiedText) (trim (currentSpokenText r)))
          then setCurrentSpokenText (trim identifiedText) s
          else s
        else s
    | Throw err =>
        let errorMessage :=
          match err with
          | JsError message => message
          | NonError => FAILED_TO_IDENTIFY
          end in
        let s := setError (Some errorMessage) s in
        setLastDetectedTextByAI empty s
    end in
  setIsProcessingAI false s.

(** *** Stopping (lines 133-161) *)

Definition handleStopRecordingInternal (s : State) : State :=
  let s :=
    match mediaRecorderRef s with
    | Some m =>
        match recState m with
        | recording =>
            set_mediaRecorderRef
              (Some {| recStream := recStream m; recMimeType := recMimeType m;
                       recState := inactive |}) s
        | _ => s
        end
    | None => s
    end in
  setIsRecording false s.

Definition stopAllStreamsAndProcessing (r : ReactState) (s : State) : State :=
  let s := match stream r with
           | Some id => stop_tracks id s
           | None => s
           end in
  let s := set_srcObject None s in
  let s := setStream None s in
  let s := setIsCameraOn false s in
  let s := setIsScreenSharingOn false s in
  let s := setActiveInputType none s in
  let s := match processingIntervalRef s with
           | Some id => set_processingIntervalRef None (clearInterval id s)
           | None => s
           end in
  let s := speechSynthesis_cancel s in
  let s := setCurrentSpokenText empty s in
  let s := setLastDetectedTextByAI empty s in
  let s := setIsProcessingAI false s in
  handleStopRecordingInternal s.

(** *** Starting a source (lines 164-231) *)

(** How the permission prompt ends. *)
Inductive MediaOutcome :=
| Granted (tracks : list Track)
| Refused (t : Throwable).

Definition CAMERA_ERROR : JsString :=
  js "Could not access camera. Please ensure permissions are granted.".
Definition SCREEN_ERROR : JsString :=
  js "Could not start screen sharing. Please ensure permissions are granted.".
Definition SCREEN_ENDED : JsString :=
  js "Screen sharing ended or permission was revoked.".

(** Lines 168-173 and 200-205, common to both sources. *)
Definition reset_for_start (s : State) : State :=
  let s := setError None s in
  let s := setRecordingError None s in
  let s := setVideoRecordUrl None s in
  let s := set_recordedChunksRef [] s in
  let s := setCurrentSpokenText empty s in
  setLastDetectedTextByAI empty s.

(** Lines 187-188 and 224-225: the interval is given the
    [captureFrameAndProcess] of the render the start function belongs to. *)
Definition restart_interval (r : ReactState) (s : State) : State :=
  let s := match processingIntervalRef s with
           | Some id => clearInterval id s
           | None => s
           end in
  let (id, s) := setInterval r s in
  set_processingIntervalRef (Some id) s.

Definition startCamera (r : ReactState) (outcome : MediaOutcome) (s : State) : State :=
  let s := if isScreenSharingOn r then stopAllStreamsAndProcessing r s else s in
  let s := reset_for_start s in
  match outcome with
  | Granted tracks =>
      let (mediaStream, s) := addStream tracks s in
      let s := setStream (Some mediaStream) s in
      let s := set_srcObject (Some mediaStream) s in
      let s := setIsCameraOn true s in
      let s := setIsScreenSharingOn false s in
      let s := setActiveInputType camera s in
      restart_interval r s
  | Refused _ =>
      let s := setError (Some CAMERA_ERROR) s in
      stopAllStreamsAndProcessing r s
  end.

(** [mediaStream.getVideoTracks()[0].onended = handler]; [None] when the
    stream has no video track (the assignment then throws). *)
Fixpoint set_onended (handler : ReactState) (tracks : list Track) : option (list Track) :=
  match tracks with
  | [] => None
  | t :: rest =>
      match kind t with
      | VideoTrack =>
          Some ({| kind := kind t; trackState := trackState t;
                   onended := Some handler |} :: rest)
      | AudioTrack => option_map (cons t) (set_onended handler rest)
      end
  end.

Definition startScreenShare (r : ReactState) (outcome : MediaOutcome) (s : State) : State :=
  let s := if isCameraOn r then stopAllStreamsAndProcessing r s else s in
  let s := reset_for_start s in
  match outcome with
  | Granted tracks =>
      let (mediaStream, s) := addStream tracks s in
      let s := setStream (Some mediaStream) s in
      let s := set_srcObject (Some mediaStream) s in
      match set_onended r tracks with
      | Some tracks' =>
          let s := set_streams (<[mediaStream := tracks']> (streams s)) s in
          let s := setIsScreenSharingOn true s in
          let s := setIsCameraOn false s in
          let s := setActiveInputType screen s in
          restart_interval r s
      | None =>
          let s := setError (Some SCREEN_ERROR) s in
          stopAllStreamsAndProcessing r s
      end
  | Refused _ =>
      let s := setError (Some SCREEN_ERROR) s in
      stopAllStreamsAndProcessing r s
  end.

(** The handler of lines 216-219, attached by the render [r]. *)
Definition screen_onended (r : ReactState) (s : State) : State :=
  let s := stopAllStreamsAndProcessing r s in
  setError (Some SCREEN_ENDED) s.

(** *** Recording (lines 250-300) *)

Definition NO_ACTIVE_STREAM : JsString :=
  js "No active stream to record. Start camera or screen share first.".
Definition NO_MIME_TYPE : JsString :=
  js "No supported MIME type found for recording (e.g., video/webm).".
Definition FAILED_TO_START : JsString :=
  js "Failed to start recording. MediaRecorder might not be supported or stream is invalid.".

Definition mimeTypes : list JsString :=
  [js "video/webm;codecs=vp9,opus"; js "video/webm;codecs=vp8,opus";
   js "video/webm"; js "video/mp4"].

(** The [catch] of lines 295-299. *)
Definition recording_failed (s : State) : State :=
  let s := setRecordingError (Some FAILED_TO_START) s in
  setIsRecording false s.

Definition handleStartRecording (pf : Platform) (r : ReactState) (s : State) : State :=
  match stream r, activeInputType r with
  | None, _ | _, none => setRecordingError (Some NO_ACTIVE_STREAM) s
  | Some mediaStream, _ =>
      if isRecording r then s
      else
        let s := setRecordingError None s in
        let s := setVideoRecordUrl None s in
        let s := set_recordedChunksRef [] s in
        match find (isTypeSupported pf) mimeTypes with
        | None => setRecordingError (Some NO_MIME_TYPE) s
        | Some supportedMimeType =>
            if recorderConstructorThrows pf then recording_failed s
            else
              let s := set_mediaRecorderRef
                         (Some {| recStream := mediaStream;
                                  recMimeType := supportedMimeType;
                                  recState := inactive |}) s in
              if recorderStartThrows pf then recording_failed s
              else
                let s := set_mediaRecorderRef
                           (Some {| recStream := mediaStream;
                                    recMimeType := supportedMimeType;
                                    recState := recording |}) s in
                setIsRecording true s
        end
  end.

(** The three handlers of the recorder (lines 276-291). *)
Definition ondataavailable (data : Blob) (s : State) : State :=
  if 0 <? blobSize data then set_recordedChunksRef (recordedChunksRef s ++ [data]) s
  else s.

Definition onstop (supportedMimeType : JsString) (s : State) : State :=
  let blob := {| blobSize := fold_right N.add 0 (map blobSize (recordedChunksRef s));
                 blobType := supportedMimeType |} in
  let s := setVideoRecordUrl (Some (createObjectURL blob)) s in
  set_recordedChunksRef [] s.

Definition onerror (errorName : option JsString) (s : State) : State :=
  let shown := match errorName with
               | Some n => if truthy n then n else js "Unknown error"
               | None => js "Unknown error"
               end in
  let s := setRecordingError (Some (js "Recording failed: " ++ shown)) s in
  setIsRecording false s.

(** *** Events *)

(** The interval [id] fires: the browser calls the callback it was given,
    then React commits. *)
Definition tick (pf : Platform) (id : TimerId) (s : State) : State :=
  match timers s !! id with
  | Some callback => speech_effect pf (react s) (captureFrameAndProcess callback s)
  | None => s
  end.

(** The [k]-th pending recognition call settles: [outcome] is what the
    service did with its request.  The awaiting callback resumes, then React
    commits. *)
Definition settle (pf : Platform) (k : nat) (outcome : Gemini.GenerateOutcome)
    (s : State) : State :=
  match pending s !! k with
  | Some call =>
      let result :=
        Gemini.identifyTextInImage (API_KEY pf) (undefinedTrimMessage pf)
          (fun _ => outcome) (base64ImageData call) (Some (customPrompt call)) in
      speech_effect pf (react s)
        (captureFrameAndProcess_resume (awaitedBy call) result
           (set_pending (delete k (pending s)) s))
  | None => s
  end.

(** The video element has data to show. *)
Definition video_playing (w h : N) (picture : JsString) (s : State) : State :=
  match video s with
  | Some el =>
      set_video (Some {| srcObject := srcObject el; readyState := 4;
                         videoWidth := w; videoHeight := h; frame := picture |}) s
  | None => s
  end.

(** The number of recognition calls in flight. *)
Definition in_flight (s : State) : nat := length (pending s).

(** Whether a call of the callback [r] in [s] reaches
    [identifyTextInImage]: line 92 lets it pass and the canvas has a
    context. *)
Definition polls (r : ReactState) (s : State) : bool :=
  negb (early_return r s)
  && match canvas s with
     | Some c => context2d c
     | None => false
     end.

(** [n] consecutive firings of the interval [id]. *)
Fixpoint ticks (pf : Platform) (id : TimerId) (n : nat) (s : State) : State :=
  match n with
  | O => s
  | S n' => ticks pf id n' (tick pf id s)
  end.

(** A sequence of [speakText] calls, each by the callback of some render. *)
Fixpoint speakAll (pf : Platform) (calls : list (ReactState * JsString)) (s : State)
  : State :=
  match calls with
  | [] => s
  | (r, t) :: rest => speakAll pf rest (speakText pf r t s)
  end.

(** *** The mounted component before any interaction *)

Definition initialRender : ReactState :=
  {| isCameraOn := false; isScreenSharingOn := false; activeInputType := none;
     isProcessingAI := false; currentSpokenText := empty;
     lastDetectedTextByAI := empty; error := None; stream := None;
     customPromptText := empty; isRecording := false; videoRecordUrl := None;
     recordingError := None; speechRate := QArith_base.Qmake 1 1;
     availableVoices := []; selectedVoiceURI := None |}.

Definition mounted : State :=
  {| react := initialRender;
     video := Some {| srcObject := None; readyState := 0; videoWidth := 0;
                      videoHeight := 0; frame := empty |};
     canvas := Some {| width := 300; height := 150; context2d := true |};
     processingIntervalRef := None;
     mediaRecorderRef := None;
     recordedChunksRef := [];
     streams := ∅;
     nextStream := 0%nat;
     timers := ∅;
     nextTimer := 1%positive;
     speechQueue := [];
     pending := [] |}.

End App.

(** ** Concrete sessions *)

Module Scenario.
Import App.

(** A browser with a configured key that records WebM. *)
Definition browser : Platform :=
  {| API_KEY := Some (js "k");
     undefinedTrimMessage := js "Cannot read properties of undefined";
     isTypeSupported := fun m => eqb m (js "video/webm");
     utteranceThrows := false;
     recorderConstructorThrows := false;
     recorderStartThrows := false |}.

Definition videoTrack : Track :=
  {| kind := VideoTrack; trackState := live; onended := None |}.

(** The callback of the session's current render. *)
Definition currentRender (s : State) : ReactState := react s.

(** The user denies the camera. *)
Definition refused : State :=
  startCamera (currentRender mounted) (Refused NonError) mounted.

(** A screen share is started from the mounted component and plays. *)
Definition sharing : State :=
  video_playing 640 480 (js "c2NyZWVu")
    (startScreenShare (currentRender mounted) (Granted [videoTrack]) mounted).

(** [startCamera] is called while the screen share is active (the case its
    first lines handle); the camera is granted and plays. *)
Definition switched : State :=
  video_playing 640 480 (js "Y2FtZXJh")
    (startCamera (currentRender sharing) (Granted [videoTrack]) sharing).

(** The camera session polls once and the service answers [A]. *)
Definition reading : State :=
  settle browser 0 (Gemini.Responded (Some (js "A"))) (tick browser 2%positive switched).

(** [startScreenShare] is called while the camera is active and [A] is
    being spoken; the share is granted and plays. *)
Definition reshared : State :=
  video_playing 640 480 (js "c2NyZWVu")
    (startScreenShare (currentRender reading) (Granted [videoTrack]) reading).

(** The new session polls once and the service answers [A] again. *)
Definition reread : State :=
  settle browser 0 (Gemini.Responded (Some (js "A"))) (tick browser 3%positive reshared).

(** A session that records its camera. *)
Definition filming : State :=
  handleStartRecording browser (currentRender switched) switched.

End Scenario.

(** ** The rest of App.tsx: toggles, settings, effects, and runs of callbacks *)

Module Lifecycle.
Import App.

(** [handleToggleCamera] and [handleToggleScreenShare] (lines 234-248);
    [outcome] is how the permission prompt ends if one is opened. *)
Definition handleToggleCamera (r : ReactState) (outcome : MediaOutcome) (s : State) : State :=
  if isCameraOn r then stopAllStreamsAndProcessing r s else startCamera r outcome s.

Definition handleToggleScreenShare (r : ReactState) (outcome : MediaOutcome) (s : State)
  : State :=
  if isScreenSharingOn r then stopAllStreamsAndProcessing r s
  else startScreenShare r outcome s.

(** The [disabled] attributes of the two source buttons (lines 477, 487). *)
Definition cameraButtonDisabled (r : ReactState) : bool :=
  isScreenSharingOn r || isRecording r.

Definition screenShareButtonDisabled (r : ReactState) : bool :=
  isCameraOn r || isRecording r.

(** [handleStopRecording] (lines 302-304). *)
Definition handleStopRecording (s : State) : State := handleStopRecordingInternal s.

(** The two halves of a start around its [await]: what runs when the button
    is clicked, and what runs when the permission prompt ends. *)
Definition startCamera_before (r : ReactState) (s : State) : State :=
  let s := if isScreenSharingOn r then stopAllStreamsAndProcessing r s else s in
  reset_for_start s.

Definition startCamera_after (r : ReactState) (outcome : MediaOutcome) (s : State) : State :=
  match outcome with
  | Granted tracks =>
      let (mediaStream, s) := addStream tracks s in
      let s := setStream (Some mediaStream) s in
      let s := set_srcObject (Some mediaStream) s in
      let s := setIsCameraOn true s in
      let s := setIsScreenSharingOn false s in
      let s := setActiveInputType camera s in
      restart_interval r s
  | Refused _ =>
      let s := setError (Some CAMERA_ERROR) s in
      stopAllStreamsAndProcessing r s
  end.

Definition startScreenShare_before (r : ReactState) (s : State) : State :=
  let s := if isCameraOn r then stopAllStreamsAndProcessing r s else s in
  reset_for_start s.

Definition startScreenShare_after (r : ReactState) (outcome : MediaOutcome) (s : State)
  : State :=
  match outcome with
  | Granted tracks =>
      let (mediaStream, s) := addStream tracks s in
      let s := setStream (Some mediaStream) s in
      let s := set_srcObject (Some mediaStream) s in
      match set_onended r tracks with
      | Some tracks' =>
          let s := set_streams (<[mediaStream := tracks']> (streams s)) s in
          let s := setIsScreenSharingOn true s in
          let s := setIsCameraOn false s in
          let s := setActiveInputType screen s in
          restart_interval r s
      | None =>
          let s := setError (Some SCREEN_ERROR) s in
          stopAllStreamsAndProcessing r s
      end
  | Refused _ =>
      let s := setError (Some SCREEN_ERROR) s in
      stopAllStreamsAndProcessing r s
  end.

(** The setters of the settings panel (lines 364, 382, 393) and of the
    voices effect (line 49). *)
Definition setCustomPromptText (v : JsString) : State -> State :=
  upd_react (fun r =>
    mkReact (isCameraOn r) (isScreenSharingOn r) (activeInputType r) (isProcessingAI r)
      (currentSpokenText r) (lastDetectedTextByAI r) (error r) (stream r) v
      (isRecording r) (videoRecordUrl r) (recordingError r) (speechRate r)
      (availableVoices r) (selectedVoiceURI r)).

Definition setSpeechRate (v : QArith_base.Q) : State -> State :=
  upd_react (fun r =>
    mkReact (isCameraOn r) (isScreenSharingOn r) (activeInputType r) (isProcessingAI r)
      (currentSpokenText r) (lastDetectedTextByAI r) (error r) (stream r)
      (customPromptText r) (isRecording r) (videoRecordUrl r) (recordingError r) v
      (availableVoices r) (selectedVoiceURI r)).

Definition setAvailableVoices (v : list Voice) : State -> State :=
  upd_react (fun r =>
    mkReact (isCameraOn r) (isScreenSharingOn r) (activeInputType r) (isProcessingAI r)
      (currentSpokenText r) (lastDetectedTextByAI r) (error r) (stream r)
      (customPromptText r) (isRecording r) (videoRecordUrl r) (recordingError r)
      (speechRate r) v (selectedVoiceURI r)).

Definition setSelectedVoiceURI (v : option JsString) : State -> State :=
  upd_react (fun r =>
    mkReact (isCameraOn r) (isScreenSharingOn r) (activeInputType r) (isProcessingAI r)
      (currentSpokenText r) (lastDetectedTextByAI r) (error r) (stream r)
      (customPromptText r) (isRecording r) (videoRecordUrl r) (recordingError r)
      (speechRate r) (availableVoices r) v).

(** The slider of line 382 is moved: the rate is set, then React commits. *)
Definition changeSpeechRate (pf : Platform) (v : QArith_base.Q) (s : State) : State :=
  speech_effect pf (react s) (setSpeechRate v s).

(** Another voice is selected (line 393), then React commits. *)
Definition changeVoice (pf : Platform) (uri : JsString) (s : State) : State :=
  speech_effect pf (react s) (setSelectedVoiceURI (Some uri) s).

(** [loadVoices] (lines 47-55) with what [getVoices()] returns, then React
    commits.  [getVoices()] makes a new array at every call, so
    [availableVoices] changes whatever the array holds, [speakText] is a
    new function (line 83) and the effect of lines 85-89 runs. *)
Definition loadVoices (pf : Platform) (voices : list Voice) (s : State) : State :=
  let s := setAvailableVoices voices s in
  let r := react s in
  if truthy (currentSpokenText r) then speakText pf r (currentSpokenText r) s else s.

(** The speech engine finishes the utterance it was speaking. *)
Definition utterance_ended (s : State) : State :=
  set_speechQueue (tl (speechQueue s)) s.

(** The recorder delivers a run of chunks. *)
Fixpoint deliver (chunks : list Blob) (s : State) : State :=
  match chunks with
  | [] => s
  | data :: rest => deliver rest (ondataavailable data s)
  end.

(** The cleanup function that the effect of lines 320-327 returns in the
    render [r]: it stops everything with that render's
    [stopAllStreamsAndProcessing] and revokes that render's recording URL,
    if it has one (the second component). *)
Definition effect_cleanup (r : ReactState) (s : State) : State * option ObjectURL :=
  (stopAllStreamsAndProcessing r s, videoRecordUrl r).

Definition blob_eqb (a b : Blob) : bool :=
  (blobSize a =? blobSize b) && eqb (blobType a) (blobType b).

Definition url_eqb (a b : ObjectURL) : bool :=
  match a, b with
  | createObjectURL x, createObjectURL y => blob_eqb x y
  end.

(** The dependencies of that effect are [stopAllStreamsAndProcessing], a
    new function whenever [stream] changes (line 161), and [videoRecordUrl]
    (object URLs are compared by the blob they stand for). *)
Definition same_cleanup_deps (prev next : ReactState) : bool :=
  option_eqb Nat.eqb (stream prev) (stream next)
  && option_eqb url_eqb (videoRecordUrl prev) (videoRecordUrl next).

(** What React does with that effect when it commits the render that
    follows [prev]: when a dependency changed, the cleanup of [prev] runs. *)
Definition cleanup_effect (prev : ReactState) (s : State) : State * option ObjectURL :=
  if same_cleanup_deps prev (react s) then (s, None) else effect_cleanup prev s.

(** One call of a callback of the component, or one event of the browser.
    Callbacks carry the render they were created by, which need not be the
    current one. *)
Inductive Op :=
| StartCameraBefore (r : ReactState)
| StartCameraAfter (r : ReactState) (outcome : MediaOutcome)
| StartScreenShareBefore (r : ReactState)
| StartScreenShareAfter (r : ReactState) (outcome : MediaOutcome)
| StopAll (r : ReactState)
| ScreenEnded (r : ReactState)
| TimerTick (id : TimerId)
| CallSettled (k : nat) (outcome : Gemini.GenerateOutcome)
| StartRecording (r : ReactState)
| StopRecording
| DataAvailable (data : Blob)
| RecorderStopped (supportedMimeType : JsString)
| RecorderError (errorName : option JsString)
| VideoPlaying (w h : N) (picture : JsString)
| UtteranceEnded
| SpeechRateChanged (v : QArith_base.Q)
| VoiceChanged (uri : JsString)
| VoicesLoaded (voices : list Voice)
| CustomPromptChanged (v : JsString).

Definition apply_op (pf : Platform) (op : Op) (s : State) : State :=
  match op with
  | StartCameraBefore r => startCamera_before r s
  | StartCameraAfter r outcome => startCamera_after r outcome s
  | StartScreenShareBefore r => startScreenShare_before r s
  | StartScreenShareAfter r outcome => startScreenShare_after r outcome s
  | StopAll r => stopAllStreamsAndProcessing r s
  | ScreenEnded r => screen_onended r s
  | TimerTick id => tick pf id s
  | CallSettled k outcome => settle pf k outcome s
  | StartRecording r => handleStartRecording pf r s
  | StopRecording => handleStopRecording s
  | DataAvailable data => ondataavailable data s
  | RecorderStopped mime => onstop mime s
  | RecorderError errorName => onerror errorName s
  | VideoPlaying w h picture => video_playing w h picture s
  | UtteranceEnded => utterance_ended s
  | SpeechRateChanged v => changeSpeechRate pf v s
  | VoiceChanged uri => changeVoice pf uri s
  | VoicesLoaded voices => loadVoices pf voices s
  | CustomPromptChanged v => setCustomPromptText v s
  end.

Fixpoint run (pf : Platform) (ops : list Op) (s : State) : State :=
  match ops with
  | [] => s
  | op :: rest => run pf rest (apply_op pf op s)
  end.

(** The three flags name the same source. *)
Definition flags_agree (r : ReactState) : Prop :=
  match activeInputType r with
  | camera => isCameraOn r = true /\ isScreenSharingOn r = false
  | screen => isCameraOn r = false /\ isScreenSharingOn r = true
  | none => isCameraOn r = false /\ isScreenSharingOn r = false
  end.

(** What the source flags, the spoken text and the speech queue are. *)
Definition view (s : State) : bool * bool * ActiveInputType * JsString * list Utterance :=
  (isCameraOn (react s), isScreenSharingOn (react s), activeInputType (react s),
   currentSpokenText (react s), speechQueue s).

(** The flags agree, at most one utterance is queued, and the spoken text
    carries no surrounding white space. *)
Definition session_invariant (s : State) : Prop :=
  flags_agree (react s)
  /\ (length (speechQueue s) <= 1)%nat
  /\ trim (currentSpokenText (react s)) = currentSpokenText (react s).

(** A start whose callback was created while no input was active, as every
    start is that the two buttons trigger. *)
Definition starts_from_inactive (op : Op) : Prop :=
  match op with
  | StartCameraAfter r _ | StartScreenShareAfter r _ => activeInputType r = none
  | _ => True
  end.

(** Every installed interval holds a callback created while no input was
    active. *)
Definition timers_inactive (s : State) : Prop :=
  forall id cb, timers s !! id = Some cb -> activeInputType cb = none.

End Lifecycle.

(** ** Reading the JSON of the script back *)

(** ** The component as the page drives it *)

Module Page.
Import App Lifecycle.














End Page.

Module JsonReader.
Import HtmlToJson.

(** A tree made of elements and text only. *)
Fixpoint plain (n : Node) : bool :=
  match n with
  | Element _ _ _ children => forallb plain children
  | Text _ => true
  | _ => false
  end.

Definition elementTypeOf (s : JsString) : option ElementType :=
  if eqb s (js "tag") then Some Tag
  else if eqb s (js "script") then Some Script
  else if eqb s (js "style") then Some Style
  else None.

Fixpoint attribsOf (fields : list (JsString * Json)) : option (list (JsString * JsString)) :=
  match fields with
  | [] => Some []
  | (k, JString v) :: rest => option_map (cons (k, v)) (attribsOf rest)
  | _ => None
  end.

(** The node an object of the output stands for, when it has the shape
    [nodeToJson] gives to an element or to a text. *)
Fixpoint jsonToNode (j : Json) : option Node :=
  match j with
  | JObject [(_, JString ty); (_, JString name); (_, JObject attribs); (_, JArray items)] =>
      match elementTypeOf ty, attribsOf attribs,
            (fix all (l : list Json) : option (list Node) :=
               match l with
               | [] => Some []
               | x :: r =>
                   match jsonToNode x, all r with
                   | Some n, Some ns => Some (n :: ns)
                   | _, _ => None
                   end
               end) items with
      | Some t, Some a, Some children => Some (Element t name a children)
      | _, _, _ => None
      end
  | JObject [(_, JString _); (_, JString data)] => Some (Text data)
  | _ => None
  end.

End JsonReader.

(** * Properties *)

(** ** Strings *)

Module JsStrFacts.

Lemma eqb_refl (s : JsString) : eqb s s = true.
Proof.
  induction s as [|c s IH]; simpl; [reflexivity|].
  rewrite N.eqb_refl. exact IH.
Qed.

Lemma eqb_eq (s t : JsString) : eqb s t = true <-> s = t.
Proof.
  split; [|intros ->; apply eqb_refl].
  revert t; induction s as [|a s IH]; intros [|b t] H; simpl in H;
    try reflexivity; try discriminate.
  apply andb_true_iff in H as [Hab Hst].
  apply N.eqb_eq in Hab. subst b. f_equal. auto.
Qed.

Lemma eqb_neq (s t : JsString) : eqb s t = false <-> s <> t.
Proof.
  split.
  - intros H E. apply eqb_eq in E. rewrite E in H. discriminate.
  - intros H. destruct (eqb s t) eqn:E; [|reflexivity].
    apply eqb_eq in E. contradiction.
Qed.

Lemma truthy_false (s : JsString) : truthy s = false <-> s = empty.
Proof. unfold empty. destruct s; simpl; split; intros H; congruence. Qed.

Lemma truthy_eqb_empty (s : JsString) : truthy s = negb (eqb s empty).
Proof. destruct s; reflexivity. Qed.

(** A string that does not start with white space is left alone. *)
Lemma trimStart_clean (s : JsString) : starts_clean s -> trimStart s = s.
Proof. destruct s as [|c s]; simpl; [reflexivity|]. intros ->. reflexivity. Qed.

Lemma trimStart_starts_clean (s : JsString) : starts_clean (trimStart s).
Proof.
  induction s as [|c s IH]; simpl; [exact I|].
  destruct (is_whitespace c) eqn:E; [exact IH|]. simpl. exact E.
Qed.

Lemma trimStart_idem (s : JsString) : trimStart (trimStart s) = trimStart s.
Proof. apply trimStart_clean, trimStart_starts_clean. Qed.

(** Trimming the front of [l ++ [a]] keeps the last character when it is
    not white space. *)
Lemma trimStart_snoc (l : JsString) (a : N) :
  is_whitespace a = false -> exists l', trimStart (l ++ [a]) = l' ++ [a].
Proof.
  intros Ha. induction l as [|c l IH]; simpl.
  - rewrite Ha. exists []. reflexivity.
  - destruct (is_whitespace c).
    + exact IH.
    + exists (c :: l). reflexivity.
Qed.

(** Trimming the end keeps a clean start. *)
Lemma trimEnd_starts_clean (s : JsString) : starts_clean s -> starts_clean (trimEnd s).
Proof.
  unfold trimEnd. destruct s as [|a s]; simpl; [intros _; exact I|].
  intros Ha. destruct (trimStart_snoc (rev s) a Ha) as [l' ->].
  rewrite rev_app_distr. simpl. exact Ha.
Qed.

Lemma trim_starts_clean (s : JsString) : starts_clean (trim s).
Proof. apply trimEnd_starts_clean, trimStart_starts_clean. Qed.

Lemma trimEnd_idem (s : JsString) : trimEnd (trimEnd s) = trimEnd s.
Proof.
  unfold trimEnd. rewrite rev_involutive, trimStart_idem. reflexivity.
Qed.

(** [trim] is idempotent: a trimmed string has no surrounding white space
    left. *)
Lemma trim_idem (s : JsString) : trim (trim s) = trim s.
Proof.
  unfold trim at 1. rewrite (trimStart_clean (trim s) (trim_starts_clean s)).
  unfold trim. apply trimEnd_idem.
Qed.

Lemma trim_empty : trim empty = empty.
Proof. reflexivity. Qed.

(** What [trimStart] removes is a run of white space at the front. *)
Lemma trimStart_split (s : JsString) :
  exists pre, s = pre ++ trimStart s /\ all_whitespace pre.
Proof.
  induction s as [|c s IH]; simpl.
  - exists []. split; [reflexivity|constructor].
  - destruct (is_whitespace c) eqn:E.
    + destruct IH as (pre & H1 & H2). exists (c :: pre). split.
      * simpl. f_equal. exact H1.
      * constructor; assumption.
    + exists []. split; [reflexivity|constructor].
Qed.

(** What [trimEnd] removes is a run of white space at the back, and it
    removes all of it. *)
Lemma trimEnd_split (s : JsString) :
  exists post, s = trimEnd s ++ post /\ all_whitespace post.
Proof.
  unfold trimEnd. destruct (trimStart_split (rev s)) as (pre & H1 & H2).
  exists (rev pre). split.
  - apply (f_equal (@rev N)) in H1.
    rewrite rev_involutive, rev_app_distr in H1. exact H1.
  - apply Forall_rev, H2.
Qed.

Lemma trimEnd_ends_clean (s : JsString) : ends_clean (trimEnd s).
Proof.
  unfold ends_clean, trimEnd. rewrite rev_involutive. apply trimStart_starts_clean.
Qed.

(** [trim] takes [s] apart into a run of white space, the result, and a run
    of white space; the result neither starts nor ends with white space, so
    nothing more could have been removed and nothing inside was. *)
Lemma trim_split (s : JsString) :
  exists pre post,
    s = pre ++ trim s ++ post
    /\ all_whitespace pre /\ all_whitespace post
    /\ starts_clean (trim s) /\ ends_clean (trim s).
Proof.
  destruct (trimStart_split s) as (pre & H1 & H2).
  destruct (trimEnd_split (trimStart s)) as (post & H3 & H4).
  exists pre, post. unfold trim.
  split; [rewrite <- H3; exact H1|].
  split; [exact H2|]. split; [exact H4|].
  split; [apply trim_starts_clean|apply trimEnd_ends_clean].
Qed.

Example trim_hello : trim (js "  HELLO WORLD ") = js "HELLO WORLD".
Proof. reflexivity. Qed.

Example trim_nbsp : trim [160; 72; 73; 10; 8232] = js "HI".
Proof. reflexivity. Qed.

Example includes_key :
  includes (js "400 API key not valid. Please pass a valid API key.")
           (js "API key not valid") = true.
Proof. reflexivity. Qed.

End JsStrFacts.

Import JsStrFacts.

(** ** The recognition client *)

Module GeminiFacts.
Import Gemini.

Lemma classify_not_configured : classify (JsError MSG_NOT_CONFIGURED) = Some invalid_credentials.
Proof. reflexivity. Qed.

Lemma classify_invalid_key : classify (JsError MSG_INVALID_KEY) = Some invalid_credentials.
Proof. reflexivity. Qed.

Lemma classify_unknown : classify (JsError MSG_UNKNOWN) = Some unknown.
Proof. reflexivity. Qed.

(** Whatever message is wrapped, the wrapper is recognised as an upstream
    error: the prefix differs from the two credential messages. *)
Lemma classify_upstream (m : JsString) :
  classify (JsError (MSG_API_ERROR_PREFIX ++ m)) = Some upstream_error.
Proof. vm_compute. reflexivity. Qed.

(** Every throwable with a string message, and every value that is no
    [Error], leaves the [catch] block as an [Error] of one of the classes. *)
Lemma catch_block_classified (t : Throwable) :
  exists k, classify (catch_block (Thrown t)) = Some k.
Proof.
  destruct t as [m|]; simpl.
  - destruct (includes m API_KEY_NOT_VALID).
    + exists invalid_credentials. apply classify_invalid_key.
    + exists upstream_error. apply classify_upstream.
  - exists unknown. apply classify_unknown.
Qed.

(** What [identifyTextInImage] does, for every key, image, custom prompt
    and behaviour of the service.  It returns only when the service
    responded with a text, and then the text with exactly its leading and
    trailing white space removed (possibly the empty string).  Otherwise it
    throws an [Error]: of class [invalid_credentials] when the key is
    missing or the message of the failure names it as not valid, of class
    [upstream_error] wrapping the message of the failure (a response
    without text included), of class [unknown] when the service rejected
    with a value that is no [Error].  The one exception is a rejection with
    an [Error] whose message is not a string and on which line 54 or line 57
    raises: that [TypeError] leaves the function as it is. *)
Theorem identifyTextInImage_returns_trimmed_or_classified
    (apiKey : option JsString) (undefinedTrimMessage : JsString)
    (generateContent : Request -> GenerateOutcome)
    (image : JsString) (customPrompt : option JsString) :
  let outcome := generateContent (request image customPrompt) in
  match identifyTextInImage apiKey undefinedTrimMessage generateContent image customPrompt with
  | Return t =>
      apiKey_missing apiKey = false
      /\ exists raw pre post,
           outcome = Responded (Some raw)
           /\ t = trim raw
           /\ raw = pre ++ t ++ post
           /\ all_whitespace pre /\ all_whitespace post
           /\ starts_clean t /\ ends_clean t
  | Throw e =>
      (apiKey_missing apiKey = true
       /\ e = JsError MSG_NOT_CONFIGURED
       /\ classify e = Some invalid_credentials)
      \/ (apiKey_missing apiKey = false
          /\ exists m,
               (outcome = Rejected (JsError m)
                \/ (outcome = Responded None /\ m = undefinedTrimMessage))
               /\ ((includes m API_KEY_NOT_VALID = true
                    /\ e = JsError MSG_INVALID_KEY
                    /\ classify e = Some invalid_credentials)
                   \/ (includes m API_KEY_NOT_VALID = false
                       /\ e = JsError (MSG_API_ERROR_PREFIX ++ m)
                       /\ classify e = Some upstream_error)))
      \/ (apiKey_missing apiKey = false
          /\ outcome = Rejected NonError
          /\ e = JsError MSG_UNKNOWN
          /\ classify e = Some unknown)
      \/ (apiKey_missing apiKey = false
          /\ (exists interpolated, outcome = RejectedOdd (Value true) interpolated)
          /\ e = JsError MSG_INVALID_KEY
          /\ classify e = Some invalid_credentials)
      \/ (apiKey_missing apiKey = false
          /\ exists text,
               outcome = RejectedOdd (Value false) (Value text)
               /\ e = JsError (MSG_API_ERROR_PREFIX ++ text)
               /\ classify e = Some upstream_error)
      \/ (apiKey_missing apiKey = false
          /\ exists raised,
               ((exists interpolated, outcome = RejectedOdd (TypeError raised) interpolated)
                \/ outcome = RejectedOdd (Value false) (TypeError raised))
               /\ e = JsError raised)
  end.
Proof.
  cbv zeta. unfold identifyTextInImage, try_body.
  destruct (apiKey_missing apiKey) eqn:Hkey.
  - left. repeat split; reflexivity.
  - destruct (generateContent (request image customPrompt))
      as [[raw|]|[m|]|[[|]|raised] [text|raised']]; cbn [catch_block].
    + split; [reflexivity|].
      destruct (trim_split raw) as (pre & post & H1 & H2 & H3 & H4 & H5).
      exists raw, pre, post. repeat split; assumption.
    + right; left. split; [reflexivity|]. exists undefinedTrimMessage.
      split; [right; split; reflexivity|].
      destruct (includes undefinedTrimMessage API_KEY_NOT_VALID);
        [left|right]; repeat split; try apply classify_upstream.
    + right; left. split; [reflexivity|]. exists m. split; [left; reflexivity|].
      destruct (includes m API_KEY_NOT_VALID);
        [left|right]; repeat split; try apply classify_upstream.
    + right; right; left. repeat split.
    + do 3 right; left. repeat split. eexists. reflexivity.
    + do 3 right; left. repeat split. eexists. reflexivity.
    + do 4 right; left. split; [reflexivity|]. exists text. repeat split;
        try apply classify_upstream.
    + do 5 right. split; [reflexivity|]. exists raised'. split; [right|]; reflexivity.
    + do 5 right. split; [reflexivity|]. exists raised.
      split; [left; eexists|]; reflexivity.
    + do 5 right. split; [reflexivity|]. exists raised.
      split; [left; eexists|]; reflexivity.
Qed.



End GeminiFacts.

(** ** The HTML to JSON script *)

Module HtmlToJsonFacts.
Import HtmlToJson.

(** An element becomes an object with its type, name, attributes and the
    images of its children, in this order. *)
Lemma nodeToJson_element (t : ElementType) (name : JsString)
    (attribs : list (JsString * JsString)) (children : list Node) :
  nodeToJson (Element t name attribs children)
  = JObject [(js "type", JString (elementTypeName t));
             (js "name", JString name);
             (js "attribs", attribsToJson attribs);
             (js "children", JArray (map nodeToJson children))].
Proof. reflexivity. Qed.

Lemma nodeToJson_text (data : JsString) :
  nodeToJson (Text data) = JObject [(js "type", JString (js "text")); (js "data", JString data)].
Proof. reflexivity. Qed.

(** Standard input that ends after some chunks resolves with their
    concatenation. *)
Lemma readStdin_chunks (chunks : list JsString) (acc : JsString) (rest : list StdinEvent) :
  readStdin acc (map OnData chunks ++ OnEnd :: rest) = Some (Return (acc ++ concat chunks)).
Proof.
  revert acc. induction chunks as [|c chunks IH]; intros acc; simpl.
  - rewrite app_nil_r. reflexivity.
  - rewrite IH, <- app_assoc. reflexivity.
Qed.

Section Script.
Variable parseDocument : JsString -> list Node.
Variable stringify : Json -> JsString.
Variable missingCallbackMessage : JsString.

Let run := main parseDocument stringify missingCallbackMessage.

(** Without a path the script converts what standard input delivers. *)
Lemma main_stdin (chunks : list JsString) (rest : list StdinEvent) :
  run None (map OnData chunks ++ OnEnd :: rest)
  = {| stdout := [stringify (JArray (map nodeToJson (parseDocument (concat chunks))))];
       stderr := [];
       exitCode := Some 0 |}.
Proof.
  unfold run, main, readInput. rewrite readStdin_chunks. reflexivity.
Qed.

(** Whenever [main] rejects, the script prints nothing and exits with 1. *)
Lemma main_failure_exits_1 (argv2 : option JsString) (stdin : list StdinEvent) (err : Throwable) :
  readInput missingCallbackMessage argv2 stdin = Some (Throw err) ->
  run argv2 stdin = {| stdout := []; stderr := [err]; exitCode := Some 1 |}.
Proof. unfold run, main. intros ->. reflexivity. Qed.

(** Given any non-empty path, the script fails before it reads the file. *)
Lemma main_path_fails (path : JsString) (stdin : list StdinEvent) :
  truthy path = true ->
  run (Some path) stdin
  = {| stdout := []; stderr := [JsError missingCallbackMessage]; exitCode := Some 1 |}.
Proof. unfold run, main, readInput. intros ->. reflexivity. Qed.

End Script.

(** C9.  Called as [htmlToJson.ts index.html], the script does not convert
    the file: [fs.readFile] is called without its callback and throws, so
    the script prints the error and exits with code 1 without writing any
    JSON, whatever the file holds and whatever arrives on standard input. *)
Theorem main_with_file_argument_exits_1
    (parseDocument : JsString -> list Node) (stringify : Json -> JsString)
    (missingCallbackMessage : JsString) (stdin : list StdinEvent) :
  main parseDocument stringify missingCallbackMessage (Some (js "index.html")) stdin
  = {| stdout := []; stderr := [JsError missingCallbackMessage]; exitCode := Some 1 |}.
Proof. apply main_path_fails. reflexivity. Qed.

End HtmlToJsonFacts.

(** ** The session *)

Module AppFacts.
Import App.

(** *** Speech *)

Lemma option_eqb_refl (o : option JsString) : option_eqb eqb o o = true.
Proof. destruct o; simpl; [apply eqb_refl|reflexivity]. Qed.

Lemma voices_eqb_refl (l : list Voice) : voices_eqb l l = true.
Proof.
  induction l as [|v l IH]; simpl; [reflexivity|].
  unfold voice_eqb. rewrite !eqb_refl. exact IH.
Qed.

Lemma same_speakText_refl (r : ReactState) : same_speakText r r = true.
Proof.
  unfold same_speakText.
  rewrite option_eqb_refl, voices_eqb_refl, !andb_true_r.
  apply QArith_base.Qeq_bool_iff. reflexivity.
Qed.

(** The effect does not run when neither the spoken text nor the speech
    settings changed. *)
Lemma speech_effect_idle (pf : Platform) (prev : ReactState) (s : State) :
  currentSpokenText (react s) = currentSpokenText prev ->
  speechRate (react s) = speechRate prev ->
  selectedVoiceURI (react s) = selectedVoiceURI prev ->
  availableVoices (react s) = availableVoices prev ->
  speech_effect pf prev s = s.
Proof.
  intros Ht Hr Hu Hv. unfold speech_effect, same_speakText.
  rewrite Ht, Hr, Hu, Hv, eqb_refl, option_eqb_refl, voices_eqb_refl.
  replace (QArith_base.Qeq_bool (speechRate prev) (speechRate prev)) with true;
    [reflexivity|].
  symmetry. apply QArith_base.Qeq_bool_iff. reflexivity.
Qed.

(** What one call leaves in the queue. *)
Lemma speakText_queue (pf : Platform) (r : ReactState) (t : JsString) (s : State) :
  speechQueue (speakText pf r t s)
  = if truthy (trim t)
    then (if utteranceThrows pf then [] else [newUtterance r t])
    else speechQueue s.
Proof.
  unfold speakText. destruct (truthy (trim t)); simpl; [|reflexivity].
  destruct (utteranceThrows pf); reflexivity.
Qed.

Lemma speakText_bounded (pf : Platform) (r : ReactState) (t : JsString) (s : State) :
  (length (speechQueue s) <= 1)%nat ->
  (length (speechQueue (speakText pf r t s)) <= 1)%nat.
Proof.
  intros H. rewrite speakText_queue.
  destruct (truthy (trim t)); [|exact H].
  destruct (utteranceThrows pf); simpl; lia.
Qed.

Lemma speakAll_bounded (pf : Platform) (calls : list (ReactState * JsString)) (s : State) :
  (length (speechQueue s) <= 1)%nat ->
  (length (speechQueue (speakAll pf calls s)) <= 1)%nat.
Proof.
  revert s. induction calls as [|[r t] calls IH]; intros s H; simpl; [exact H|].
  apply IH, speakText_bounded, H.
Qed.

(** C10.  [speakText] called with empty or white-space-only text returns
    at once: the session, and with it the queue of the speech engine and the
    utterance being spoken, is exactly what it was. *)
Theorem speakText_blank_is_noop (pf : Platform) (r : ReactState) (t : JsString) (s : State) :
  truthy (trim t) = false ->
  speakText pf r t s = s.
Proof. intros H. unfold speakText. rewrite H. reflexivity. Qed.

Lemma speakText_blank_is_noop_witness :
  speakText Scenario.browser (react Scenario.reading) (js "  ") Scenario.reading
  = Scenario.reading.
Proof. apply speakText_blank_is_noop. reflexivity. Defined.

(** C7.  However many [speakText] calls came before, the queue of the
    speech engine never holds more than one utterance, and a further call
    that speaks leaves exactly its own utterance there: what the earlier
    call queued has been cancelled before the new utterance was handed
    over.  So two utterances are never audible together. *)
Theorem speakText_preempts (pf : Platform) (calls : list (ReactState * JsString))
    (r : ReactState) (t : JsString) (s : State) :
  (length (speechQueue s) <= 1)%nat ->
  let before := speakAll pf calls s in
  let after := speakText pf r t before in
  (length (speechQueue before) <= 1)%nat
  /\ (length (speechQueue after) <= 1)%nat
  /\ (truthy (trim t) = true ->
      speechQueue after = if utteranceThrows pf then [] else [newUtterance r t]).
Proof.
  intros H before after. subst before after.
  split; [apply speakAll_bounded, H|].
  split; [apply speakText_bounded, speakAll_bounded, H|].
  intros Ht. rewrite speakText_queue, Ht. reflexivity.
Qed.

Lemma speakText_preempts_witness :
  (length (speechQueue (speakAll Scenario.browser [(initialRender, js "HELLO")] mounted)) <= 1)%nat
  /\ (length (speechQueue
                (speakText Scenario.browser initialRender (js "WORLD")
                   (speakAll Scenario.browser [(initialRender, js "HELLO")] mounted))) <= 1)%nat
  /\ (truthy (trim (js "WORLD")) = true ->
      speechQueue
        (speakText Scenario.browser initialRender (js "WORLD")
           (speakAll Scenario.browser [(initialRender, js "HELLO")] mounted))
      = [newUtterance initialRender (js "WORLD")]).
Proof.
  apply (speakText_preempts Scenario.browser [(initialRender, js "HELLO")]
           initialRender (js "WORLD") mounted).
  simpl. lia.
Defined.

(** *** Recording *)

(** C8.  [handleStartRecording] called by a callback that holds no stream,
    or whose active input type is [none], only records the
    no-active-stream error: no [MediaRecorder] is created, [isRecording]
    keeps its value (false when idle) and no chunk is touched. *)
Theorem handleStartRecording_without_stream (pf : Platform) (r : ReactState) (s : State) :
  stream r = None \/ activeInputType r = none ->
  let s' := handleStartRecording pf r s in
  s' = setRecordingError (Some NO_ACTIVE_STREAM) s
  /\ recordingError (react s') = Some NO_ACTIVE_STREAM
  /\ mediaRecorderRef s' = mediaRecorderRef s
  /\ isRecording (react s') = isRecording (react s)
  /\ recordedChunksRef s' = recordedChunksRef s.
Proof.
  intros H s'.
  assert (E : s' = setRecordingError (Some NO_ACTIVE_STREAM) s).
  { subst s'. unfold handleStartRecording.
    destruct H as [-> | ->]; [reflexivity|].
    destruct (stream r); reflexivity. }
  rewrite E. repeat split.
Qed.

Lemma handleStartRecording_without_stream_witness :
  handleStartRecording Scenario.browser initialRender mounted
  = setRecordingError (Some NO_ACTIVE_STREAM) mounted
  /\ recordingError (react (handleStartRecording Scenario.browser initialRender mounted))
     = Some NO_ACTIVE_STREAM
  /\ mediaRecorderRef (handleStartRecording Scenario.browser initialRender mounted)
     = mediaRecorderRef mounted
  /\ isRecording (react (handleStartRecording Scenario.browser initialRender mounted))
     = isRecording (react mounted)
  /\ recordedChunksRef (handleStartRecording Scenario.browser initialRender mounted)
     = recordedChunksRef mounted.
Proof.
  apply (handleStartRecording_without_stream Scenario.browser initialRender mounted).
  left. reflexivity.
Defined.

(** *** Stopping *)

Lemma track_stop_idem (t : Track) : track_stop (track_stop t) = track_stop t.
Proof. reflexivity. Qed.

Lemma track_stop_ended (tracks : list Track) :
  Forall (fun t => trackState t = ended) (map track_stop tracks).
Proof. induction tracks; simpl; constructor; auto. Qed.

Lemma stop_all_twice (id : StreamId) (m : gmap StreamId (list Track)) :
  alter (map track_stop) id (alter (map track_stop) id m) = alter (map track_stop) id m.
Proof.
  rewrite alter_alter_eq. apply alter_ext. intros tracks _. simpl.
  rewrite map_map. reflexivity.
Qed.

(** Computes the projections of a session built by setters.  To be used once
    every [match] of the handler at hand has a constructor to look at. *)
Ltac session_cbv :=
  cbv beta iota zeta delta
      [react video canvas processingIntervalRef mediaRecorderRef recordedChunksRef
       streams nextStream timers nextTimer speechQueue pending
       isCameraOn isScreenSharingOn activeInputType isProcessingAI currentSpokenText
       lastDetectedTextByAI error stream customPromptText isRecording videoRecordUrl
       recordingError speechRate availableVoices selectedVoiceURI
       upd_react setIsCameraOn setIsScreenSharingOn setActiveInputType setIsProcessingAI
       setCurrentSpokenText setLastDetectedTextByAI setError setStream setIsRecording
       setVideoRecordUrl setRecordingError
       set_video set_canvas set_processingIntervalRef set_mediaRecorderRef
       set_recordedChunksRef set_streams set_nextStream set_timers set_nextTimer
       set_speechQueue set_pending
       stopAllStreamsAndProcessing handleStopRecordingInternal stop_tracks
       set_srcObject clearInterval speechSynthesis_cancel
       recState recStream recMimeType srcObject readyState videoWidth videoHeight frame
       width height context2d awaitedBy base64ImageData customPrompt
       captureFrameAndProcess_resume in_flight].

(** C4.  Stopping twice in a row ends in the state that stopping once ends
    in, for every session state: both when the same callback is called
    again and when the second call is the callback of the render that
    follows the first stop. *)
Theorem stopAllStreamsAndProcessing_idempotent (r : ReactState) (s : State) :
  stopAllStreamsAndProcessing r (stopAllStreamsAndProcessing r s)
  = stopAllStreamsAndProcessing r s
  /\ stopAllStreamsAndProcessing (react (stopAllStreamsAndProcessing r s))
       (stopAllStreamsAndProcessing r s)
     = stopAllStreamsAndProcessing r s.
Proof.
  destruct s as [r0 v c p m ch st ns tm nt q pd].
  unfold stopAllStreamsAndProcessing.
  destruct (stream r) as [id|], v as [el|], p as [t|], m as [[ms mm []]|];
    session_cbv; rewrite ?stop_all_twice; split; reflexivity.
Qed.

(** C3 as the code has it.  After [stopAllStreamsAndProcessing], called as
    the callback of the current render: every track of the session's stream
    is ended, the video element has no source, no input is active, the poll
    timer is cleared, the speech queue is empty, a recorder that was
    recording is inactive and [isRecording] is false, the spoken text, the
    detected text and the in-flight flag are cleared.  The error state is
    not touched: [error] and [recordingError] keep their values. *)
Theorem stopAllStreamsAndProcessing_postconditions (s : State) :
  let s' := stopAllStreamsAndProcessing (react s) s in
  (forall id tracks,
      stream (react s) = Some id -> streams s !! id = Some tracks ->
      streams s' !! id = Some (map track_stop tracks)
      /\ Forall (fun t => trackState t = ended) (map track_stop tracks))
  /\ (forall el, video s' = Some el -> srcObject el = None)
  /\ stream (react s') = None
  /\ isCameraOn (react s') = false
  /\ isScreenSharingOn (react s') = false
  /\ activeInputType (react s') = none
  /\ processingIntervalRef s' = None
  /\ (forall id, processingIntervalRef s = Some id -> timers s' !! id = None)
  /\ speechQueue s' = []
  /\ isRecording (react s') = false
  /\ (forall m, mediaRecorderRef s = Some m -> recState m = recording ->
       exists m', mediaRecorderRef s' = Some m' /\ recState m' = inactive)
  /\ currentSpokenText (react s') = empty
  /\ lastDetectedTextByAI (react s') = empty
  /\ isProcessingAI (react s') = false
  /\ error (react s') = error (react s)
  /\ recordingError (react s') = recordingError (react s).
Proof.
  destruct s as [r0 v c p m ch st ns tm nt q pd].
  destruct r0 as [cam scr ait ipa cst ldt err str cpt rec url rerr rate voices uri].
  unfold stopAllStreamsAndProcessing.
  destruct str as [id|], v as [el|], p as [t|], m as [[ms mm []]|];
    session_cbv;
    repeat match goal with |- _ /\ _ => split end;
    try reflexivity;
    try (intros ? ? ?; discriminate);
    try (intros ? ?; discriminate);
    try (intros ? ? [= <-] Hl; rewrite lookup_alter_eq, Hl;
         split; [reflexivity|apply track_stop_ended]);
    try (intros ? [= <-]; reflexivity);
    try (intros ? [= <-]; apply lookup_delete_eq);
    try (intros ? [= <-] Hrec; simpl in Hrec; first
           [ discriminate Hrec | eexists; split; reflexivity ]).
Qed.

(** The camera was refused, which left its error on display; stopping does
    not clear it. *)
Lemma stop_keeps_error :
  error (react Scenario.refused) = Some CAMERA_ERROR
  /\ error (react (stopAllStreamsAndProcessing (react Scenario.refused) Scenario.refused))
     = Some CAMERA_ERROR.
Proof. split; vm_compute; reflexivity. Qed.

(** *** Polling *)

(** The start half of the callback touches neither the timers nor the video
    nor anything the speech effect depends on. *)
Lemma captureFrameAndProcess_frame (cb : ReactState) (s : State) :
  let s' := captureFrameAndProcess cb s in
  timers s' = timers s
  /\ processingIntervalRef s' = processingIntervalRef s
  /\ video s' = video s
  /\ currentSpokenText (react s') = currentSpokenText (react s)
  /\ speechRate (react s') = speechRate (react s)
  /\ selectedVoiceURI (react s') = selectedVoiceURI (react s)
  /\ availableVoices (react s') = availableVoices (react s).
Proof.
  unfold captureFrameAndProcess.
  destruct (early_return cb s); [repeat split|].
  destruct s as [r0 v c p m ch st ns tm nt q pd].
  destruct v as [el|], c as [[w h []]|]; session_cbv; repeat split.
Qed.

Lemma tick_is_callback (pf : Platform) (id : TimerId) (cb : ReactState) (s : State) :
  timers s !! id = Some cb -> tick pf id s = captureFrameAndProcess cb s.
Proof.
  intros H. unfold tick. rewrite H.
  destruct (captureFrameAndProcess_frame cb s) as (_ & _ & _ & Ht & Hr & Hu & Hv).
  apply speech_effect_idle; assumption.
Qed.

(** A callback that polls pushes one pending call, and polls again the next
    time it is called: nothing it reads has changed. *)
Lemma captureFrameAndProcess_polls (cb : ReactState) (s : State) :
  polls cb s = true ->
  let s' := captureFrameAndProcess cb s in
  in_flight s' = S (in_flight s)
  /\ isProcessingAI (react s') = true
  /\ polls cb s' = true.
Proof.
  destruct cb as [cam scr ait ipa cst ldt err str cpt rec url rerr rate voices uri].
  destruct s as [r0 [[so rs vw vh fr]|] [[w h ctx]|] p m ch st ns tm nt q pd];
    unfold polls, captureFrameAndProcess, early_return; session_cbv;
    destruct ipa, ait; simpl; try (intros H; discriminate H);
    destruct (N.ltb rs HAVE_METADATA) eqn:Hready; simpl;
    try (intros H; discriminate H);
    destruct ctx; simpl; try (intros H; discriminate H);
    intros _; session_cbv; rewrite ?length_app, ?Hready; simpl;
    repeat split; lia.
Qed.

(** A callback that closed over [activeInputType = none] or over
    [isProcessingAI = true] returns at line 93, whatever the session is. *)
Lemma captureFrameAndProcess_returns (cb : ReactState) (s : State) :
  activeInputType cb = none \/ isProcessingAI cb = true ->
  captureFrameAndProcess cb s = s.
Proof.
  intros H. unfold captureFrameAndProcess.
  replace (early_return cb s) with true; [reflexivity|].
  unfold early_return. destruct H as [-> | ->]; [|reflexivity].
  rewrite orb_true_r. reflexivity.
Qed.

Lemma identifyTextInImage_throws_Error (apiKey : option JsString) (utm : JsString)
    (gen : Gemini.Request -> Gemini.GenerateOutcome) (image : JsString)
    (prompt : option JsString) (e : Throwable) :
  Gemini.identifyTextInImage apiKey utm gen image prompt = Throw e ->
  exists m, e = JsError m.
Proof.
  unfold Gemini.identifyTextInImage.
  destruct (Gemini.apiKey_missing apiKey); [intros [= <-]; eauto|].
  destruct (Gemini.try_body utm gen image prompt) as [t|err]; [discriminate|].
  intros [= <-].
  destruct err as [[m|]|[[|]|raised] [text|raised']]; simpl; eauto.
  destruct (includes m Gemini.API_KEY_NOT_VALID); eauto.
Qed.

(** The resume half after a throw. *)
Lemma resume_after_throw (cb : ReactState) (m : JsString) (s : State) :
  captureFrameAndProcess_resume cb (Throw (JsError m)) s
  = setIsProcessingAI false (setLastDetectedTextByAI empty (setError (Some m) s)).
Proof. reflexivity. Qed.

(** C6.  When a pending recognition call settles with a throw (a missing or
    rejected key included): the detected text is cleared, the message of the
    error is recorded for display, the in-flight flag is reset, and the poll
    timer is left alone, so every interval is still installed with the same
    callback, sees the same guard, and a callback that polled before the
    failure starts a new call at its next tick. *)
Theorem recognition_error_keeps_polling (pf : Platform) (k : nat)
    (outcome : Gemini.GenerateOutcome) (s : State) (call : PendingCall) (e : Throwable) :
  pending s !! k = Some call ->
  Gemini.identifyTextInImage (API_KEY pf) (undefinedTrimMessage pf) (fun _ => outcome)
    (base64ImageData call) (Some (customPrompt call)) = Throw e ->
  let s' := settle pf k outcome s in
  lastDetectedTextByAI (react s') = empty
  /\ (exists m, e = JsError m /\ error (react s') = Some m)
  /\ isProcessingAI (react s') = false
  /\ timers s' = timers s
  /\ processingIntervalRef s' = processingIntervalRef s
  /\ (forall cb, early_return cb s' = early_return cb s /\ polls cb s' = polls cb s)
  /\ (forall id cb, timers s !! id = Some cb -> polls cb s = true ->
       in_flight (tick pf id s') = S (in_flight s')).
Proof.
  intros Hk Hthrow s'.
  destruct (identifyTextInImage_throws_Error _ _ _ _ _ _ Hthrow) as [m ->].
  assert (E : s' = setIsProcessingAI false
                     (setLastDetectedTextByAI empty
                        (setError (Some m) (set_pending (delete k (pending s)) s)))).
  { subst s'. unfold settle. rewrite Hk. cbv zeta. rewrite Hthrow, resume_after_throw.
    apply speech_effect_idle; reflexivity. }
  clearbody s'. subst s'.
  assert (Hguard : forall cb,
             early_return cb
               (setIsProcessingAI false
                  (setLastDetectedTextByAI empty
                     (setError (Some m) (set_pending (delete k (pending s)) s))))
             = early_return cb s
             /\ polls cb
                  (setIsProcessingAI false
                     (setLastDetectedTextByAI empty
                        (setError (Some m) (set_pending (delete k (pending s)) s))))
                = polls cb s).
  { intros cb. split; reflexivity. }
  repeat match goal with |- _ /\ _ => split end; try reflexivity.
  - exists m. split; reflexivity.
  - exact (Hguard).
  - intros id cb Ht Hp.
    rewrite (tick_is_callback pf id cb); [|exact Ht].
    apply captureFrameAndProcess_polls. rewrite (proj2 (Hguard cb)). exact Hp.
Qed.

Lemma recognition_error_keeps_polling_witness :
  pending (tick Scenario.browser 2%positive Scenario.switched) !! 0%nat
  = Some {| awaitedBy := react Scenario.sharing;
            base64ImageData := js "Y2FtZXJh";
            customPrompt := empty |}
  /\ lastDetectedTextByAI
       (react (settle Scenario.browser 0
                 (Gemini.Rejected (JsError (js "API key not valid")))
                 (tick Scenario.browser 2%positive Scenario.switched))) = empty
  /\ (exists m, JsError Gemini.MSG_INVALID_KEY = JsError m
        /\ error (react (settle Scenario.browser 0
                           (Gemini.Rejected (JsError (js "API key not valid")))
                           (tick Scenario.browser 2%positive Scenario.switched))) = Some m).
Proof.
  assert (Hk : pending (tick Scenario.browser 2%positive Scenario.switched) !! 0%nat
               = Some {| awaitedBy := react Scenario.sharing;
                         base64ImageData := js "Y2FtZXJh";
                         customPrompt := empty |})
    by (vm_compute; reflexivity).
  split; [exact Hk|].
  pose proof (recognition_error_keeps_polling Scenario.browser 0
                (Gemini.Rejected (JsError (js "API key not valid")))
                (tick Scenario.browser 2%positive Scenario.switched) _
                (JsError Gemini.MSG_INVALID_KEY) Hk) as H.
  cbv zeta in H.
  destruct H as (H1 & H2 & _); [vm_compute; reflexivity|].
  split; [exact H1|exact H2].
Defined.

(** The guard of line 92 at the level of the functions, at a session the
    page itself cannot reach (the camera button is disabled during a screen
    share).  [startCamera] was called while a screen share was active, so
    the interval holds the [captureFrameAndProcess] of that render: it
    closed over [isProcessingAI = false] and [activeInputType = screen].
    The first tick starts a call and sets the live flag; the second tick,
    with that call still pending, tests the value it closed over and starts
    a second call. *)
Theorem second_tick_starts_second_call :
  timers Scenario.switched !! 2%positive = Some (react Scenario.sharing)
  /\ isProcessingAI (react Scenario.sharing) = false
  /\ in_flight Scenario.switched = 0%nat
  /\ in_flight (tick Scenario.browser 2%positive Scenario.switched) = 1%nat
  /\ isProcessingAI (react (tick Scenario.browser 2%positive Scenario.switched)) = true
  /\ in_flight (tick Scenario.browser 2%positive (tick Scenario.browser 2%positive Scenario.switched)) = 2%nat.
Proof. repeat match goal with |- _ /\ _ => split end; vm_compute; reflexivity. Qed.

(** The comparison of line 115 at the level of the functions, at a session
    the page itself cannot reach.  [A] was being spoken when
    [startScreenShare] was called, so the new interval holds a callback that
    closed over [currentSpokenText = A], while the start itself reset the
    spoken text to the empty string.  The first poll of the new session
    recognises [A]: the detected text is updated, but the text is compared
    with the value closed over, found equal, and neither promoted nor
    spoken. *)
Theorem stale_spoken_text_suppresses_speech :
  currentSpokenText (react Scenario.reading) = js "A"
  /\ timers Scenario.reshared !! 3%positive = Some (react Scenario.reading)
  /\ currentSpokenText (react Scenario.reshared) = empty
  /\ speechQueue Scenario.reshared = []
  /\ lastDetectedTextByAI (react Scenario.reread) = js "A"
  /\ currentSpokenText (react Scenario.reread) = empty
  /\ speechQueue Scenario.reread = [].
Proof. repeat match goal with |- _ /\ _ => split end; vm_compute; reflexivity. Qed.

End AppFacts.

(** ** More on the recognition client *)

Module GeminiMore.
Import Gemini.

Lemma trim_nonempty_truthy (p : JsString) : eqb (trim p) empty = false -> truthy p = true.
Proof. destruct p; [intros H; discriminate H|reflexivity]. Qed.

(** The custom instructions reach the request only through their trimmed
    text: instructions made of white space alone give the request of a call
    without instructions, and any others give the request of their trimmed
    form. *)
Theorem request_uses_trimmed_instructions (image p : JsString) :
  request image (Some p)
  = if eqb (trim p) empty then request image None
    else request image (Some (trim p)).
Proof.
  unfold request, promptText. rewrite trim_idem.
  destruct (eqb (trim p) empty) eqn:E.
  - rewrite andb_false_r. reflexivity.
  - rewrite (trim_nonempty_truthy p E).
    assert (Ht : truthy (trim p) = true).
    { rewrite truthy_eqb_empty, E. reflexivity. }
    rewrite Ht. reflexivity.
Qed.

(** Without an API key (undefined or the empty string) the call throws the
    not-configured error and the outcome does not depend on the service at
    all: no request is made. *)
Theorem missing_key_throws_before_any_request
    (apiKey : option JsString) (undefinedTrimMessage : JsString)
    (service service' : Request -> GenerateOutcome)
    (image : JsString) (customPrompt : option JsString) :
  apiKey = None \/ apiKey = Some empty ->
  identifyTextInImage apiKey undefinedTrimMessage service image customPrompt
  = Throw (JsError MSG_NOT_CONFIGURED)
  /\ identifyTextInImage apiKey undefinedTrimMessage service' image customPrompt
     = identifyTextInImage apiKey undefinedTrimMessage service image customPrompt.
Proof. intros [-> | ->]; split; reflexivity. Qed.

Lemma missing_key_throws_before_any_request_witness :
  identifyTextInImage (Some empty) (js "t") (fun _ => Responded (Some (js "HELLO")))
    (js "aW1n") None
  = Throw (JsError MSG_NOT_CONFIGURED)
  /\ identifyTextInImage (Some empty) (js "t") (fun _ => Rejected NonError) (js "aW1n") None
     = identifyTextInImage (Some empty) (js "t") (fun _ => Responded (Some (js "HELLO")))
         (js "aW1n") None.
Proof.
  apply (missing_key_throws_before_any_request (Some empty) (js "t")
           (fun _ => Responded (Some (js "HELLO"))) (fun _ => Rejected NonError)
           (js "aW1n") None).
  right. reflexivity.
Defined.

(** A response that carries no text is an upstream error, not an empty
    result: with a key configured, the call throws the wrapped message of
    the engine's [TypeError] (or the invalid-key error, should that message
    name the key). *)
Theorem response_without_text_throws
    (key undefinedTrimMessage : JsString) (service : Request -> GenerateOutcome)
    (image : JsString) (customPrompt : option JsString) :
  truthy key = true ->
  service (request image customPrompt) = Responded None ->
  identifyTextInImage (Some key) undefinedTrimMessage service image customPrompt
  = Throw (if includes undefinedTrimMessage API_KEY_NOT_VALID
           then JsError MSG_INVALID_KEY
           else JsError (MSG_API_ERROR_PREFIX ++ undefinedTrimMessage)).
Proof.
  intros Hkey Hresp. unfold identifyTextInImage, apiKey_missing, try_body.
  rewrite Hkey, Hresp. simpl.
  destruct (includes undefinedTrimMessage API_KEY_NOT_VALID); reflexivity.
Qed.

Lemma response_without_text_throws_witness :
  identifyTextInImage (Some (js "k")) (js "Cannot read properties of undefined")
    (fun _ => Responded None) (js "aW1n") None
  = Throw (JsError (MSG_API_ERROR_PREFIX ++ js "Cannot read properties of undefined")).
Proof.
  apply (response_without_text_throws (js "k") (js "Cannot read properties of undefined")
           (fun _ => Responded None) (js "aW1n") None); reflexivity.
Defined.

End GeminiMore.

(** ** More on the HTML to JSON script *)

Module ScriptMore.
Import HtmlToJson JsonReader.

Lemma elementTypeOf_name (t : ElementType) : elementTypeOf (elementTypeName t) = Some t.
Proof. destruct t; reflexivity. Qed.

Lemma attribsOf_attribs (attribs : list (JsString * JsString)) :
  attribsOf (map (fun kv => (fst kv, JString (snd kv))) attribs) = Some attribs.
Proof.
  induction attribs as [|[k v] rest IH]; simpl; [reflexivity|].
  rewrite IH. reflexivity.
Qed.

(** Reading back what [nodeToJson] wrote gives the node again, for trees of
    elements and text. *)
Lemma jsonToNode_nodeToJson : forall n, plain n = true -> jsonToNode (nodeToJson n) = Some n.
Proof.
  fix IH 1. intros [t name attribs children|data|d|dn dd|c|c] Hplain;
    try discriminate Hplain; [|reflexivity].
  simpl in Hplain. simpl.
  rewrite elementTypeOf_name.
  unfold attribsToJson. rewrite attribsOf_attribs.
  assert (Hall : (fix all (l : list Json) : option (list Node) :=
                    match l with
                    | [] => Some []
                    | x :: r =>
                        match jsonToNode x, all r with
                        | Some n, Some ns => Some (n :: ns)
                        | _, _ => None
                        end
                    end) (map nodeToJson children) = Some children).
  { clear -IH Hplain. revert Hplain.
    induction children as [|c rest IHrest]; simpl; intros Hplain; [reflexivity|].
    apply andb_true_iff in Hplain as [Hc Hrest].
    rewrite (IH c Hc), (IHrest Hrest). reflexivity. }
  rewrite Hall. reflexivity.
Qed.

(** On trees of elements and text the conversion loses nothing: two such
    trees with the same JSON are the same tree. *)
Theorem nodeToJson_injective_on_elements_and_text (n1 n2 : Node) :
  plain n1 = true -> plain n2 = true ->
  nodeToJson n1 = nodeToJson n2 -> n1 = n2.
Proof.
  intros H1 H2 E.
  apply jsonToNode_nodeToJson in H1, H2.
  rewrite E in H1. rewrite H1 in H2. injection H2 as H2. exact H2.
Qed.

Lemma nodeToJson_injective_on_elements_and_text_witness :
  Element Tag (js "p") [(js "class", js "x")] [Text (js "hi")]
  = Element Tag [112] [([99; 108; 97; 115; 115], [120])] [Text [104; 105]].
Proof.
  apply (nodeToJson_injective_on_elements_and_text
           (Element Tag (js "p") [(js "class", js "x")] [Text (js "hi")])
           (Element Tag [112] [([99; 108; 97; 115; 115], [120])] [Text [104; 105]]));
    reflexivity.
Defined.

Section Script.
Variable parseDocument : JsString -> list Node.
Variable stringify : Json -> JsString.
Variable missingCallbackMessage : JsString.

(** Without a path argument, or with an empty one, the script converts
    standard input: the chunks are concatenated in the order they arrive up
    to the first ['end'] (what follows is ignored), the document is printed
    as one JSON array with one entry per top-level node, and the run ends
    normally. *)
Theorem script_converts_standard_input (argv2 : option JsString)
    (chunks : list JsString) (rest : list StdinEvent) :
  argv2 = None \/ argv2 = Some empty ->
  main parseDocument stringify missingCallbackMessage argv2
    (map OnData chunks ++ OnEnd :: rest)
  = {| stdout := [stringify (JArray (map nodeToJson (parseDocument (concat chunks))))];
       stderr := [];
       exitCode := Some 0 |}.
Proof.
  intros [-> | ->]; unfold main, readInput; simpl;
    rewrite HtmlToJsonFacts.readStdin_chunks; reflexivity.
Qed.

(** An error on standard input before its end makes the script fail: the
    error is printed, nothing is written to standard output, and the exit
    code is 1. *)
Theorem script_fails_on_input_error (chunks : list JsString) (err : Throwable)
    (rest : list StdinEvent) :
  main parseDocument stringify missingCallbackMessage None
    (map OnData chunks ++ OnError err :: rest)
  = {| stdout := []; stderr := [err]; exitCode := Some 1 |}.
Proof.
  unfold main, readInput.
  assert (H : forall acc, readStdin acc (map OnData chunks ++ OnError err :: rest)
                          = Some (Throw err)).
  { induction chunks as [|c cs IH]; intros acc; simpl; [reflexivity|apply IH]. }
  rewrite H. reflexivity.
Qed.

(** A run never both writes JSON and fails: it ends with code 0 and exactly
    one line of output and no error, or with code 1, one error and no
    output, or it is still waiting for standard input and has written
    nothing. *)
Theorem script_output_xor_failure (argv2 : option JsString) (stdin : list StdinEvent) :
  let r := main parseDocument stringify missingCallbackMessage argv2 stdin in
  (exitCode r = Some 0 /\ (exists line, stdout r = [line]) /\ stderr r = [])
  \/ (exitCode r = Some 1 /\ stdout r = [] /\ exists err, stderr r = [err])
  \/ (exitCode r = None /\ stdout r = [] /\ stderr r = []
      /\ readStdin empty stdin = None).
Proof.
  unfold main, readInput.
  destruct argv2 as [path|]; [destruct (truthy path)|].
  - right; left. simpl. eauto.
  - destruct (readStdin empty stdin) as [[html|err]|] eqn:E; simpl; eauto 10.
  - destruct (readStdin empty stdin) as [[html|err]|] eqn:E; simpl; eauto 10.
Qed.

End Script.

Lemma script_converts_standard_input_witness :
  main (fun _ => [Text (js "hi")]) (fun _ => js "[...]") (js "no callback") (Some empty)
    (map OnData [js "h"; js "i"] ++ OnEnd :: [OnData (js "late")])
  = {| stdout := [js "[...]"]; stderr := []; exitCode := Some 0 |}.
Proof.
  apply (script_converts_standard_input (fun _ => [Text (js "hi")]) (fun _ => js "[...]")
           (js "no callback") (Some empty) [js "h"; js "i"] [OnData (js "late")]).
  right. reflexivity.
Defined.

End ScriptMore.

(** ** More on the session *)

Module LifecycleFacts.
Import App Lifecycle AppFacts.

(** As [session_cbv], with the callbacks and setters of [Lifecycle]. *)
Ltac lifecycle_cbv :=
  cbv beta iota zeta delta
      [react video canvas processingIntervalRef mediaRecorderRef recordedChunksRef
       streams nextStream timers nextTimer speechQueue pending
       isCameraOn isScreenSharingOn activeInputType isProcessingAI currentSpokenText
       lastDetectedTextByAI error stream customPromptText isRecording videoRecordUrl
       recordingError speechRate availableVoices selectedVoiceURI
       upd_react setIsCameraOn setIsScreenSharingOn setActiveInputType setIsProcessingAI
       setCurrentSpokenText setLastDetectedTextByAI setError setStream setIsRecording
       setVideoRecordUrl setRecordingError
       setCustomPromptText setSpeechRate setAvailableVoices setSelectedVoiceURI
       set_video set_canvas set_processingIntervalRef set_mediaRecorderRef
       set_recordedChunksRef set_streams set_nextStream set_timers set_nextTimer
       set_speechQueue set_pending
       stopAllStreamsAndProcessing handleStopRecordingInternal handleStopRecording
       stop_tracks set_srcObject clearInterval setInterval addStream restart_interval
       reset_for_start speechSynthesis_cancel speechSynthesis_speak
       startCamera startScreenShare startCamera_before startCamera_after
       startScreenShare_before startScreenShare_after screen_onended
       recording_failed ondataavailable onstop onerror video_playing utterance_ended
       recState recStream recMimeType srcObject readyState videoWidth videoHeight frame
       width height context2d awaitedBy base64ImageData customPrompt
       captureFrameAndProcess_resume in_flight].

(** *** The poll timer *)

Lemma ticks_polling (pf : Platform) (id : TimerId) (cb : ReactState) (n : nat) :
  forall s, timers s !! id = Some cb -> polls cb s = true ->
            in_flight (ticks pf id n s) = (n + in_flight s)%nat.
Proof.
  induction n as [|n IH]; intros s Ht Hp; simpl; [reflexivity|].
  rewrite (tick_is_callback pf id cb s Ht).
  destruct (captureFrameAndProcess_polls cb s Hp) as (Hfl & _ & Hp').
  destruct (captureFrameAndProcess_frame cb s) as (Htm & _).
  cbv zeta in Hfl, Hp', Htm.
  rewrite IH; [rewrite Hfl; lia| rewrite Htm; exact Ht | exact Hp'].
Qed.

(** An interval whose callback passes line 92 once passes it at every
    tick: with no call settling in between, [n] ticks leave [n] more calls
    in flight.  The flag the first tick sets is not the one the later ticks
    test. *)
Theorem ticks_accumulate_calls (pf : Platform) (id : TimerId) (cb : ReactState)
    (n : nat) (s : State) :
  timers s !! id = Some cb ->
  polls cb s = true ->
  in_flight (ticks pf id n s) = (n + in_flight s)%nat
  /\ (0 < n -> isProcessingAI (react (tick pf id s)) = true)%nat.
Proof.
  intros Ht Hp. split; [apply (ticks_polling pf id cb n s Ht Hp)|].
  intros _. rewrite (tick_is_callback pf id cb s Ht).
  apply (captureFrameAndProcess_polls cb s Hp).
Qed.

Lemma ticks_accumulate_calls_witness :
  in_flight (ticks Scenario.browser 2%positive 5 Scenario.switched)
  = (5 + in_flight Scenario.switched)%nat
  /\ (0 < 5 -> isProcessingAI (react (tick Scenario.browser 2%positive Scenario.switched))
               = true)%nat.
Proof.
  apply (ticks_accumulate_calls Scenario.browser 2%positive (react Scenario.sharing) 5
           Scenario.switched); vm_compute; reflexivity.
Defined.

Lemma ticks_returning (pf : Platform) (id : TimerId) (cb : ReactState) (n : nat) :
  activeInputType cb = none \/ isProcessingAI cb = true ->
  forall s, timers s !! id = Some cb -> ticks pf id n s = s.
Proof.
  intros Hcb. induction n as [|n IH]; intros s Ht; simpl; [reflexivity|].
  rewrite (tick_is_callback pf id cb s Ht), (captureFrameAndProcess_returns cb s Hcb).
  apply IH, Ht.
Qed.

Lemma restart_interval_installs (r : ReactState) (s : State) :
  processingIntervalRef (restart_interval r s) = Some (nextTimer s)
  /\ timers (restart_interval r s) !! nextTimer s = Some r.
Proof.
  destruct s as [r0 v c [t|] m ch st ns tm nt q pd]; lifecycle_cbv;
    split; try reflexivity; apply lookup_insert_eq.
Qed.

Lemma startCamera_after_installs (r : ReactState) (tracks : list Track) (s : State) :
  processingIntervalRef (startCamera_after r (Granted tracks) s) = Some (nextTimer s)
  /\ timers (startCamera_after r (Granted tracks) s) !! nextTimer s = Some r.
Proof.
  destruct s as [r0 [el|] c [t|] m ch st ns tm nt q pd]; lifecycle_cbv;
    split; try reflexivity; apply lookup_insert_eq.
Qed.

Lemma startScreenShare_after_installs (r : ReactState) (tracks tracks' : list Track)
    (s : State) :
  set_onended r tracks = Some tracks' ->
  processingIntervalRef (startScreenShare_after r (Granted tracks) s) = Some (nextTimer s)
  /\ timers (startScreenShare_after r (Granted tracks) s) !! nextTimer s = Some r.
Proof.
  intros H. unfold startScreenShare_after. rewrite H.
  destruct s as [r0 [el|] c [t|] m ch st ns tm nt q pd]; lifecycle_cbv;
    split; try reflexivity; apply lookup_insert_eq.
Qed.

Lemma start_before_nextTimer (r : ReactState) (s : State) :
  nextTimer (startCamera_before r s) = nextTimer s
  /\ nextTimer (startScreenShare_before r s) = nextTimer s.
Proof.
  destruct r as [cam scr ait ipa cst ldt err str cpt rec url rerr rate voices uri].
  destruct s as [r0 [el|] c [t|] [[ms mm []]|] ch st ns tm nt q pd];
    destruct cam, scr, str; lifecycle_cbv; split; reflexivity.
Qed.

(** A start whose callback was created while no input was active (as when
    a source button is pressed with nothing running) installs an interval
    that never reaches [identifyTextInImage]: its callback closed over
    [activeInputType = none], so every tick returns at line 93 and leaves
    the session as it is, whatever the session has become by then. *)
Theorem start_from_inactive_never_polls (pf : Platform) (r : ReactState)
    (tracks : list Track) (s : State) (n : nat) :
  activeInputType r = none ->
  (exists id,
      processingIntervalRef (startCamera r (Granted tracks) s) = Some id
      /\ timers (startCamera r (Granted tracks) s) !! id = Some r
      /\ forall s2, timers s2 !! id = Some r -> ticks pf id n s2 = s2)
  /\ (forall tracks', set_onended r tracks = Some tracks' ->
       exists id,
         processingIntervalRef (startScreenShare r (Granted tracks) s) = Some id
         /\ timers (startScreenShare r (Granted tracks) s) !! id = Some r
         /\ forall s2, timers s2 !! id = Some r -> ticks pf id n s2 = s2).
Proof.
  intros Hr. split.
  - exists (nextTimer s).
    change (startCamera r (Granted tracks) s)
      with (startCamera_after r (Granted tracks) (startCamera_before r s)).
    destruct (startCamera_after_installs r tracks (startCamera_before r s)) as [Hp Ht].
    rewrite (proj1 (start_before_nextTimer r s)) in Hp, Ht.
    repeat split; try assumption.
    intros s2 Hs2. apply (ticks_returning pf (nextTimer s) r n); auto.
  - intros tracks' Hon. exists (nextTimer s).
    change (startScreenShare r (Granted tracks) s)
      with (startScreenShare_after r (Granted tracks) (startScreenShare_before r s)).
    destruct (startScreenShare_after_installs r tracks tracks'
                (startScreenShare_before r s) Hon) as [Hp Ht].
    rewrite (proj2 (start_before_nextTimer r s)) in Hp, Ht.
    repeat split; try assumption.
    intros s2 Hs2. apply (ticks_returning pf (nextTimer s) r n); auto.
Qed.

Lemma start_from_inactive_never_polls_witness :
  (exists id,
      processingIntervalRef (startCamera initialRender (Granted [Scenario.videoTrack]) mounted)
      = Some id
      /\ timers (startCamera initialRender (Granted [Scenario.videoTrack]) mounted) !! id
         = Some initialRender
      /\ forall s2, timers s2 !! id = Some initialRender ->
                    ticks Scenario.browser id 3 s2 = s2)
  /\ (forall tracks', set_onended initialRender [Scenario.videoTrack] = Some tracks' ->
       exists id,
         processingIntervalRef
           (startScreenShare initialRender (Granted [Scenario.videoTrack]) mounted) = Some id
         /\ timers (startScreenShare initialRender (Granted [Scenario.videoTrack]) mounted)
               !! id = Some initialRender
         /\ forall s2, timers s2 !! id = Some initialRender ->
                       ticks Scenario.browser id 3 s2 = s2).
Proof.
  apply (start_from_inactive_never_polls Scenario.browser initialRender
           [Scenario.videoTrack] mounted 3).
  reflexivity.
Defined.

(** *** When a call settles *)

Lemma settle_responded (pf : Platform) (k : nat) (raw : JsString) (s : State)
    (call : PendingCall) :
  pending s !! k = Some call ->
  Gemini.apiKey_missing (API_KEY pf) = false ->
  settle pf k (Gemini.Responded (Some raw)) s
  = speech_effect pf (react s)
      (captureFrameAndProcess_resume (awaitedBy call) (Return (trim raw))
         (set_pending (delete k (pending s)) s)).
Proof.
  intros Hk Hkey. unfold settle. rewrite Hk. cbv zeta.
  unfold Gemini.identifyTextInImage, Gemini.try_body. rewrite Hkey. reflexivity.
Qed.

Lemma resume_text (cb : ReactState) (T : JsString) (s : State) :
  trim T = T -> T <> empty ->
  captureFrameAndProcess_resume cb (Return T) s
  = setIsProcessingAI false
      (if eqb T (trim (currentSpokenText cb))
       then setLastDetectedTextByAI T s
       else setCurrentSpokenText T (setLastDetectedTextByAI T s)).
Proof.
  intros Htrim Hne. unfold captureFrameAndProcess_resume.
  rewrite Htrim.
  assert (Ht : truthy T = true) by (destruct T; [contradiction|reflexivity]).
  assert (He : eqb T empty = false) by (apply eqb_neq; exact Hne).
  rewrite Ht, He. simpl.
  destruct (eqb T (trim (currentSpokenText cb))); reflexivity.
Qed.

Lemma speech_effect_fires (pf : Platform) (prev : ReactState) (s : State) :
  eqb (currentSpokenText prev) (currentSpokenText (react s)) = false ->
  truthy (currentSpokenText (react s)) = true ->
  speech_effect pf prev s = speakText pf (react s) (currentSpokenText (react s)) s.
Proof. intros H1 H2. unfold speech_effect. rewrite H1, H2. reflexivity. Qed.

Lemma speakText_speaks (pf : Platform) (r : ReactState) (t : JsString) (s : State) :
  truthy (trim t) = true -> utteranceThrows pf = false ->
  speakText pf r t s = speechSynthesis_speak (newUtterance r t) (speechSynthesis_cancel s).
Proof. intros H1 H2. unfold speakText. rewrite H1, H2. reflexivity. Qed.

(** What a successful call with text does to the session, spelled out. *)
Lemma settle_text (pf : Platform) (k : nat) (raw : JsString) (s : State)
    (call : PendingCall) :
  pending s !! k = Some call ->
  Gemini.apiKey_missing (API_KEY pf) = false ->
  trim raw <> empty ->
  utteranceThrows pf = false ->
  settle pf k (Gemini.Responded (Some raw)) s
  = if eqb (trim raw) (trim (currentSpokenText (awaitedBy call)))
    then setIsProcessingAI false
           (setLastDetectedTextByAI (trim raw) (set_pending (delete k (pending s)) s))
    else if eqb (currentSpokenText (react s)) (trim raw)
    then setIsProcessingAI false
           (setCurrentSpokenText (trim raw)
              (setLastDetectedTextByAI (trim raw) (set_pending (delete k (pending s)) s)))
    else speechSynthesis_speak
           (newUtterance
              (react (setIsProcessingAI false
                        (setCurrentSpokenText (trim raw)
                           (setLastDetectedTextByAI (trim raw)
                              (set_pending (delete k (pending s)) s)))))
              (trim raw))
           (speechSynthesis_cancel
              (setIsProcessingAI false
                 (setCurrentSpokenText (trim raw)
                    (setLastDetectedTextByAI (trim raw)
                       (set_pending (delete k (pending s)) s))))).
Proof.
  intros Hk Hkey Hne Hthrow.
  rewrite (settle_responded pf k raw s call Hk Hkey).
  rewrite (resume_text _ (trim raw) _ (trim_idem raw) Hne).
  destruct (eqb (trim raw) (trim (currentSpokenText (awaitedBy call)))).
  - apply speech_effect_idle; reflexivity.
  - destruct (eqb (currentSpokenText (react s)) (trim raw)) eqn:E.
    + apply eqb_eq in E. apply speech_effect_idle; try reflexivity.
      symmetry. exact E.
    + assert (Ht : truthy (trim raw) = true)
        by (destruct (trim raw); [contradiction|reflexivity]).
      rewrite speech_effect_fires; [|exact E|exact Ht].
      apply speakText_speaks; [|exact Hthrow].
      change (truthy (trim (trim raw)) = true). rewrite trim_idem. exact Ht.
Qed.

(** A poll that succeeds with text, seen from a callback whose spoken text
    is current (or that closed over none): the detected text becomes the
    trimmed result; the spoken text becomes it too; and the text is handed
    to the speech engine, replacing what was queued, exactly when it
    differs from the text spoken so far.  An equal text is not spoken
    again. *)
Theorem poll_success_updates_and_speaks (pf : Platform) (k : nat) (raw : JsString)
    (s : State) (call : PendingCall) :
  pending s !! k = Some call ->
  Gemini.apiKey_missing (API_KEY pf) = false ->
  trim raw <> empty ->
  utteranceThrows pf = false ->
  trim (currentSpokenText (awaitedBy call)) = empty
  \/ currentSpokenText (awaitedBy call) = currentSpokenText (react s) ->
  trim (currentSpokenText (react s)) = currentSpokenText (react s) ->
  let s' := settle pf k (Gemini.Responded (Some raw)) s in
  lastDetectedTextByAI (react s') = trim raw
  /\ currentSpokenText (react s') = trim raw
  /\ (trim raw <> currentSpokenText (react s) ->
      speechQueue s' = [newUtterance (react s') (trim raw)])
  /\ (trim raw = currentSpokenText (react s) -> speechQueue s' = speechQueue s)
  /\ isProcessingAI (react s') = false
  /\ error (react s') = error (react s).
Proof.
  intros Hk Hkey Hne Hthrow Hcap Htrimmed s'. subst s'.
  rewrite (settle_text pf k raw s call Hk Hkey Hne Hthrow).
  destruct (eqb (trim raw) (trim (currentSpokenText (awaitedBy call)))) eqn:E1.
  - apply eqb_eq in E1.
    assert (Hsame : trim raw = currentSpokenText (react s)).
    { destruct Hcap as [Hc|Hc]; [rewrite Hc in E1; contradiction|].
      rewrite E1, Hc. exact Htrimmed. }
    destruct s as [r0 v c p m ch st ns tm nt q pd]. revert Hsame. lifecycle_cbv.
    intros Hsame. repeat split; auto. intros Hd. contradiction.
  - destruct (eqb (currentSpokenText (react s)) (trim raw)) eqn:E2.
    + apply eqb_eq in E2.
      destruct s as [r0 v c p m ch st ns tm nt q pd]. revert E2. lifecycle_cbv.
      intros E2. repeat split; auto. intros Hd. symmetry in E2. contradiction.
    + apply eqb_neq in E2.
      destruct s as [r0 v c p m ch st ns tm nt q pd]. revert E2. lifecycle_cbv.
      intros E2. repeat split; auto. intros He. symmetry in He. contradiction.
Qed.

Lemma poll_success_updates_and_speaks_witness :
  lastDetectedTextByAI
    (react (settle Scenario.browser 0 (Gemini.Responded (Some (js " HELLO WORLD ")))
              (tick Scenario.browser 2%positive Scenario.switched)))
  = js "HELLO WORLD"
  /\ speechQueue
       (settle Scenario.browser 0 (Gemini.Responded (Some (js " HELLO WORLD ")))
          (tick Scenario.browser 2%positive Scenario.switched))
     = [newUtterance (react Scenario.switched) (js "HELLO WORLD")].
Proof.
  assert (Hk : pending (tick Scenario.browser 2%positive Scenario.switched) !! 0%nat
               = Some {| awaitedBy := react Scenario.sharing;
                         base64ImageData := js "Y2FtZXJh";
                         customPrompt := empty |})
    by (vm_compute; reflexivity).
  pose proof (poll_success_updates_and_speaks Scenario.browser 0 (js " HELLO WORLD ")
                (tick Scenario.browser 2%positive Scenario.switched) _ Hk) as H.
  cbv zeta in H.
  destruct H as (H1 & _ & H3 & _).
  - reflexivity.
  - vm_compute. discriminate.
  - reflexivity.
  - left. reflexivity.
  - reflexivity.
  - split; [exact H1|].
    rewrite H3; [vm_compute; reflexivity|vm_compute; discriminate].
Defined.

(** A poll that succeeds without text (an empty or blank answer) changes
    nothing that is shown or spoken: the detected text, the spoken text,
    the error that the start of the poll had cleared and the speech queue
    stay as they are; only the in-flight flag is reset. *)
Theorem poll_without_text_keeps_texts (pf : Platform) (k : nat) (raw : JsString)
    (s : State) (call : PendingCall) :
  pending s !! k = Some call ->
  Gemini.apiKey_missing (API_KEY pf) = false ->
  trim raw = empty ->
  settle pf k (Gemini.Responded (Some raw)) s
  = setIsProcessingAI false (set_pending (delete k (pending s)) s).
Proof.
  intros Hk Hkey He.
  rewrite (settle_responded pf k raw s call Hk Hkey), He.
  apply speech_effect_idle; reflexivity.
Qed.

Lemma poll_without_text_keeps_texts_witness :
  settle Scenario.browser 0 (Gemini.Responded (Some (js "  ")))
    (tick Scenario.browser 3%positive Scenario.reshared)
  = setIsProcessingAI false
      (set_pending (delete 0%nat (pending (tick Scenario.browser 3%positive Scenario.reshared)))
         (tick Scenario.browser 3%positive Scenario.reshared)).
Proof.
  apply (poll_without_text_keeps_texts Scenario.browser 0 (js "  ")
           (tick Scenario.browser 3%positive Scenario.reshared)
           {| awaitedBy := react Scenario.reading;
              base64ImageData := js "c2NyZWVu";
              customPrompt := empty |}).
  - vm_compute. reflexivity.
  - reflexivity.
  - reflexivity.
Defined.

Lemma stop_summary (r : ReactState) (s : State) :
  pending (stopAllStreamsAndProcessing r s) = pending s
  /\ currentSpokenText (react (stopAllStreamsAndProcessing r s)) = empty
  /\ activeInputType (react (stopAllStreamsAndProcessing r s)) = none
  /\ stream (react (stopAllStreamsAndProcessing r s)) = None.
Proof.
  destruct s as [r0 [el|] c [t|] [[ms mm []]|] ch st ns tm nt q pd];
    unfold stopAllStreamsAndProcessing; destruct (stream r);
    lifecycle_cbv; repeat split.
Qed.

(** Stopping does not cancel a recognition call that is in flight, and its
    result is not discarded when it arrives: the text is displayed and
    spoken although no input is active any more. *)
Theorem late_result_is_applied_after_stop (pf : Platform) (r : ReactState) (k : nat)
    (raw : JsString) (s : State) (call : PendingCall) :
  pending s !! k = Some call ->
  Gemini.apiKey_missing (API_KEY pf) = false ->
  trim raw <> empty ->
  utteranceThrows pf = false ->
  trim raw <> trim (currentSpokenText (awaitedBy call)) ->
  let stopped := stopAllStreamsAndProcessing r s in
  let s' := settle pf k (Gemini.Responded (Some raw)) stopped in
  in_flight stopped = in_flight s
  /\ activeInputType (react s') = none
  /\ stream (react s') = None
  /\ lastDetectedTextByAI (react s') = trim raw
  /\ currentSpokenText (react s') = trim raw
  /\ speechQueue s' = [newUtterance (react s') (trim raw)].
Proof.
  intros Hk Hkey Hne Hthrow Hcap stopped s'.
  destruct (stop_summary r s) as (Hp & Hc & Ha & Hs).
  fold stopped in Hp, Hc, Ha, Hs.
  assert (Hk' : pending stopped !! k = Some call) by (rewrite Hp; exact Hk).
  split; [unfold in_flight; rewrite Hp; reflexivity|].
  subst s'.
  rewrite (settle_text pf k raw stopped call Hk' Hkey Hne Hthrow).
  apply eqb_neq in Hcap. rewrite Hcap, Hc.
  assert (He : eqb empty (trim raw) = false) by (apply eqb_neq; congruence).
  rewrite He. clear Hk'.
  destruct stopped as [r0 v c p m ch st ns tm nt q pd].
  revert Ha Hs. lifecycle_cbv. intros Ha Hs. repeat split; assumption.
Qed.

Lemma late_result_is_applied_after_stop_witness :
  in_flight (stopAllStreamsAndProcessing (react Scenario.switched)
               (tick Scenario.browser 2%positive Scenario.switched)) = 1%nat
  /\ activeInputType
       (react (settle Scenario.browser 0 (Gemini.Responded (Some (js "A")))
                 (stopAllStreamsAndProcessing (react Scenario.switched)
                    (tick Scenario.browser 2%positive Scenario.switched)))) = none
  /\ speechQueue
       (settle Scenario.browser 0 (Gemini.Responded (Some (js "A")))
          (stopAllStreamsAndProcessing (react Scenario.switched)
             (tick Scenario.browser 2%positive Scenario.switched)))
     = [newUtterance initialRender (js "A")].
Proof.
  assert (Hk : pending (tick Scenario.browser 2%positive Scenario.switched) !! 0%nat
               = Some {| awaitedBy := react Scenario.sharing;
                         base64ImageData := js "Y2FtZXJh";
                         customPrompt := empty |})
    by (vm_compute; reflexivity).
  pose proof (late_result_is_applied_after_stop Scenario.browser (react Scenario.switched)
                0 (js "A") (tick Scenario.browser 2%positive Scenario.switched) _ Hk) as H.
  cbv zeta in H.
  destruct H as (H1 & H2 & _ & _ & _ & H6).
  - reflexivity.
  - vm_compute. discriminate.
  - reflexivity.
  - vm_compute. discriminate.
  - split; [rewrite H1; vm_compute; reflexivity|].
    split; [exact H2|]. rewrite H6. vm_compute. reflexivity.
Defined.

(** *** Starting and switching sources *)

(** A refused permission leaves nothing half started: the error of the
    source is shown, no input is active, no stream is held or attached to
    the video element, no interval is installed and nothing is queued for
    speech. *)
Theorem refused_start_tears_down (r : ReactState) (t : Throwable) (s : State) :
  let c := startCamera r (Refused t) s in
  let sh := startScreenShare r (Refused t) s in
  (error (react c) = Some CAMERA_ERROR /\ error (react sh) = Some SCREEN_ERROR)
  /\ (activeInputType (react c) = none /\ activeInputType (react sh) = none)
  /\ (isCameraOn (react c) = false /\ isScreenSharingOn (react sh) = false)
  /\ (stream (react c) = None /\ stream (react sh) = None)
  /\ (processingIntervalRef c = None /\ processingIntervalRef sh = None)
  /\ (speechQueue c = [] /\ speechQueue sh = [])
  /\ (forall el, video c = Some el -> srcObject el = None)
  /\ (forall el, video sh = Some el -> srcObject el = None).
Proof.
  destruct r as [cam scr ait ipa cst ldt err str cpt rec url rerr rate voices uri].
  destruct s as [r0 [el|] c [tm0|] [[ms mm []]|] ch st ns tm nt q pd];
    destruct cam, scr, str; lifecycle_cbv;
    repeat match goal with |- _ /\ _ => split end;
    try reflexivity;
    try (intros ? [= <-]; reflexivity);
    try (intros ? ?; discriminate).
Qed.

(** Starting the camera from the render of an active screen share: every
    track of the screen stream is ended and its interval is removed before
    the camera stream is attached; afterwards exactly the camera is on, the
    video element shows the new stream whose tracks are as granted, and one
    new interval runs, holding the callback of the render in which the
    start was called. *)
Theorem startCamera_replaces_screen_share (tracks old : list Track) (s : State)
    (id : StreamId) (t : TimerId) :
  isScreenSharingOn (react s) = true ->
  stream (react s) = Some id ->
  streams s !! id = Some old ->
  id <> nextStream s ->
  processingIntervalRef s = Some t ->
  t <> nextTimer s ->
  let s' := startCamera (react s) (Granted tracks) s in
  streams s' !! id = Some (map track_stop old)
  /\ timers s' !! t = None
  /\ stream (react s') = Some (nextStream s)
  /\ streams s' !! nextStream s = Some tracks
  /\ (forall el, video s' = Some el -> srcObject el = Some (nextStream s))
  /\ isCameraOn (react s') = true
  /\ isScreenSharingOn (react s') = false
  /\ activeInputType (react s') = camera
  /\ processingIntervalRef s' = Some (nextTimer s)
  /\ timers s' !! nextTimer s = Some (react s).
Proof.
  destruct s as [r0 v c p m ch st ns tm nt q pd].
  destruct r0 as [cam scr ait ipa cst ldt err str cpt rec url rerr rate voices uri].
  intros Hscr Hstr Hold Hid Hp Ht. simpl in Hscr, Hstr, Hold, Hid, Hp, Ht. subst scr str p.
  destruct v as [el|], m as [[ms mm []]|]; lifecycle_cbv;
    repeat match goal with |- _ /\ _ => split end;
    try reflexivity;
    try (rewrite lookup_insert_ne by congruence; rewrite lookup_alter_eq, Hold; reflexivity);
    try (rewrite lookup_insert_ne by congruence; apply lookup_delete_eq);
    try apply lookup_insert_eq;
    try (intros ? [= <-]; reflexivity);
    try (intros ? ?; discriminate).
Qed.

Lemma startCamera_replaces_screen_share_witness :
  streams (startCamera (react Scenario.sharing) (Granted [Scenario.videoTrack])
             Scenario.sharing) !! 0%nat
  = Some (map track_stop [{| kind := VideoTrack; trackState := live;
                             onended := Some initialRender |}])
  /\ timers (startCamera (react Scenario.sharing) (Granted [Scenario.videoTrack])
               Scenario.sharing) !! 1%positive = None
  /\ activeInputType (react (startCamera (react Scenario.sharing)
                               (Granted [Scenario.videoTrack]) Scenario.sharing)) = camera.
Proof.
  pose proof (startCamera_replaces_screen_share [Scenario.videoTrack]
                [{| kind := VideoTrack; trackState := live;
                    onended := Some initialRender |}]
                Scenario.sharing 0%nat 1%positive) as H.
  cbv zeta in H.
  destruct H as (H1 & H2 & _ & _ & _ & _ & _ & H8 & _).
  - reflexivity.
  - reflexivity.
  - vm_compute. reflexivity.
  - vm_compute. discriminate.
  - reflexivity.
  - vm_compute. discriminate.
  - split; [exact H1|]. split; [exact H2|exact H8].
Defined.

(** *** Invariants of every run *)

Lemma invariant_of_view (s s' : State) :
  view s' = view s -> session_invariant s -> session_invariant s'.
Proof.
  unfold view, session_invariant, flags_agree.
  intros [= -> -> -> -> ->]. auto.
Qed.

Lemma invariant_of_stopped (s : State) :
  view s = (false, false, none, empty, []) -> session_invariant s.
Proof.
  unfold view, session_invariant, flags_agree.
  intros [= -> -> -> -> ->]. simpl. repeat split. lia.
Qed.

Lemma stop_view (r : ReactState) (s : State) :
  view (stopAllStreamsAndProcessing r s) = (false, false, none, empty, []).
Proof.
  destruct s as [r0 [el|] c [t|] [[ms mm []]|] ch st ns tm nt q pd];
    unfold stopAllStreamsAndProcessing, view; destruct (stream r);
    lifecycle_cbv; reflexivity.
Qed.

Lemma setError_view (e : option JsString) (s : State) : view (setError e s) = view s.
Proof. reflexivity. Qed.

Lemma reset_for_start_invariant (s : State) :
  session_invariant s -> session_invariant (reset_for_start s).
Proof.
  unfold session_invariant, flags_agree. destruct s as [r0 v c p m ch st ns tm nt q pd].
  lifecycle_cbv. intros (Hf & Hq & _). repeat split; assumption.
Qed.

Lemma start_before_invariant (r : ReactState) (s : State) :
  session_invariant s ->
  session_invariant (startCamera_before r s)
  /\ session_invariant (startScreenShare_before r s).
Proof.
  intros H. unfold startCamera_before, startScreenShare_before.
  split; cbv zeta; apply reset_for_start_invariant;
    match goal with |- context [if ?b then _ else _] => destruct b end;
    try exact H; apply invariant_of_stopped, stop_view.
Qed.

Lemma startCamera_after_invariant (r : ReactState) (outcome : MediaOutcome) (s : State) :
  session_invariant s -> session_invariant (startCamera_after r outcome s).
Proof.
  intros H. destruct outcome as [tracks|t].
  - revert H. unfold session_invariant, flags_agree.
    destruct s as [r0 [el|] c [tm0|] m ch st ns tm nt q pd]; lifecycle_cbv;
      intros (_ & Hq & Ht); repeat split; assumption.
  - apply invariant_of_stopped. unfold startCamera_after. cbv zeta. apply stop_view.
Qed.

Lemma startScreenShare_after_invariant (r : ReactState) (outcome : MediaOutcome)
    (s : State) :
  session_invariant s -> session_invariant (startScreenShare_after r outcome s).
Proof.
  intros H. destruct outcome as [tracks|t].
  - unfold startScreenShare_after.
    destruct (set_onended r tracks) as [tracks'|].
    + revert H. unfold session_invariant, flags_agree.
      destruct s as [r0 [el|] c [tm0|] m ch st ns tm nt q pd]; lifecycle_cbv;
        intros (_ & Hq & Ht); repeat split; assumption.
    + apply invariant_of_stopped.
      destruct (addStream tracks s) as [mediaStream s1]. cbv zeta. apply stop_view.
  - apply invariant_of_stopped. unfold startScreenShare_after. cbv zeta. apply stop_view.
Qed.

Lemma captureFrameAndProcess_view (cb : ReactState) (s : State) :
  view (captureFrameAndProcess cb s) = view s.
Proof.
  unfold captureFrameAndProcess.
  destruct (early_return cb s); [reflexivity|].
  destruct s as [r0 [el|] [[w h []]|] p m ch st ns tm nt q pd];
    unfold view; lifecycle_cbv; reflexivity.
Qed.

Lemma resume_invariant (cb : ReactState) (result : Completion JsString) (s : State) :
  session_invariant s -> session_invariant (captureFrameAndProcess_resume cb result s).
Proof.
  unfold session_invariant, flags_agree, captureFrameAndProcess_resume.
  destruct s as [r0 v c p m ch st ns tm nt q pd].
  destruct result as [T|[msg|]];
    [destruct (truthy T && negb (eqb (trim T) empty));
     [destruct (negb (eqb (trim T) (trim (currentSpokenText cb))))|]| |];
    lifecycle_cbv; intros (Hf & Hq & Ht); repeat split; try assumption;
    apply trim_idem.
Qed.

Lemma speakText_invariant (pf : Platform) (r : ReactState) (t : JsString) (s : State) :
  session_invariant s -> session_invariant (speakText pf r t s).
Proof.
  unfold session_invariant, flags_agree, speakText.
  destruct s as [r0 v c p m ch st ns tm nt q pd].
  destruct (negb (truthy (trim t))); [auto|].
  destruct (utteranceThrows pf); lifecycle_cbv; intros (Hf & Hq & Ht);
    repeat split; try assumption; simpl; lia.
Qed.

Lemma speech_effect_invariant (pf : Platform) (prev : ReactState) (s : State) :
  session_invariant s -> session_invariant (speech_effect pf prev s).
Proof.
  intros H. unfold speech_effect. cbv zeta.
  destruct (eqb (currentSpokenText prev) (currentSpokenText (react s))
            && same_speakText prev (react s)); [exact H|].
  destruct (truthy (currentSpokenText (react s))); [|exact H].
  apply speakText_invariant, H.
Qed.

Lemma loadVoices_invariant (pf : Platform) (voices : list Voice) (s : State) :
  session_invariant s -> session_invariant (loadVoices pf voices s).
Proof.
  intros H. unfold loadVoices. cbv zeta.
  destruct (truthy (currentSpokenText (react (setAvailableVoices voices s))));
    [apply speakText_invariant|];
    (apply (invariant_of_view s); [reflexivity|exact H]).
Qed.

Lemma handleStartRecording_view (pf : Platform) (r : ReactState) (s : State) :
  view (handleStartRecording pf r s) = view s.
Proof.
  unfold handleStartRecording.
  destruct (stream r) as [id|], (activeInputType r); try reflexivity;
    destruct (isRecording r); try reflexivity;
    destruct (find (isTypeSupported pf) mimeTypes) as [mt|]; try reflexivity;
    destruct (recorderConstructorThrows pf); try reflexivity;
    destruct (recorderStartThrows pf); reflexivity.
Qed.

Lemma handleStopRecording_view (s : State) : view (handleStopRecording s) = view s.
Proof.
  destruct s as [r0 v c p [[ms mm []]|] ch st ns tm nt q pd]; reflexivity.
Qed.

Lemma apply_op_invariant (pf : Platform) (op : Op) (s : State) :
  session_invariant s -> session_invariant (apply_op pf op s).
Proof.
  intros H. destruct op; simpl.
  - apply (start_before_invariant r s H).
  - apply startCamera_after_invariant, H.
  - apply (start_before_invariant r s H).
  - apply startScreenShare_after_invariant, H.
  - apply invariant_of_stopped, stop_view.
  - apply invariant_of_stopped. unfold screen_onended. cbv zeta.
    rewrite setError_view. apply stop_view.
  - unfold tick. destruct (timers s !! id) as [cb|]; [|exact H].
    apply speech_effect_invariant.
    apply (invariant_of_view s); [apply captureFrameAndProcess_view|exact H].
  - unfold settle. destruct (pending s !! k) as [call|]; [|exact H].
    cbv zeta. apply speech_effect_invariant, resume_invariant.
    apply (invariant_of_view s); [reflexivity|exact H].
  - apply (invariant_of_view s); [apply handleStartRecording_view|exact H].
  - apply (invariant_of_view s); [apply handleStopRecording_view|exact H].
  - apply (invariant_of_view s); [|exact H].
    unfold ondataavailable. destruct (0 <? blobSize data)%N; reflexivity.
  - apply (invariant_of_view s); [reflexivity|exact H].
  - apply (invariant_of_view s); [reflexivity|exact H].
  - apply (invariant_of_view s); [|exact H].
    unfold video_playing. destruct (video s); reflexivity.
  - revert H. unfold session_invariant, flags_agree, utterance_ended.
    destruct s as [r0 v c p m ch st ns tm nt q pd]. lifecycle_cbv.
    intros (Hf & Hq & Ht). repeat split; try assumption.
    destruct q; simpl in *; lia.
  - apply speech_effect_invariant. apply (invariant_of_view s); [reflexivity|exact H].
  - apply speech_effect_invariant. apply (invariant_of_view s); [reflexivity|exact H].
  - apply loadVoices_invariant, H.
  - apply (invariant_of_view s); [reflexivity|exact H].
Qed.

Lemma run_invariant (pf : Platform) (ops : list Op) :
  forall s, session_invariant s -> session_invariant (run pf ops s).
Proof.
  induction ops as [|op ops IH]; intros s H; simpl; [exact H|].
  apply IH, apply_op_invariant, H.
Qed.

Lemma mounted_invariant : session_invariant mounted.
Proof. unfold session_invariant, flags_agree. simpl. repeat split. lia. Qed.

(** Whatever callbacks are called and whatever the browser does, in any
    order and with callbacks of any earlier render: [isCameraOn],
    [isScreenSharingOn] and [activeInputType] always name the same source,
    so at most one input type is active. *)
Theorem flags_always_agree (pf : Platform) (ops : list Op) :
  flags_agree (react (run pf ops mounted))
  /\ (isCameraOn (react (run pf ops mounted)) = true ->
      isScreenSharingOn (react (run pf ops mounted)) = false).
Proof.
  destruct (run_invariant pf ops mounted mounted_invariant) as (Hf & _).
  split; [exact Hf|].
  unfold flags_agree in Hf.
  destruct (activeInputType (react (run pf ops mounted))); destruct Hf as [H1 H2];
    rewrite H1, H2; intros; congruence.
Qed.

(** In every run the speech engine holds at most one utterance: nothing the
    component does ever queues a second one. *)
Theorem speech_queue_never_exceeds_one (pf : Platform) (ops : list Op) :
  (length (speechQueue (run pf ops mounted)) <= 1)%nat.
Proof. apply (run_invariant pf ops mounted mounted_invariant). Qed.

(** In every run the spoken text is empty or free of surrounding white
    space, so comparing a trimmed result with it (line 115) compares like
    with like. *)
Theorem spoken_text_always_trimmed (pf : Platform) (ops : list Op) :
  trim (currentSpokenText (react (run pf ops mounted)))
  = currentSpokenText (react (run pf ops mounted)).
Proof. apply (run_invariant pf ops mounted mounted_invariant). Qed.

(** *** What the buttons can start *)

Ltac timers_lookup H :=
  repeat first
    [ apply lookup_insert_Some in H as [[_ <-]|[_ H]]
    | apply lookup_delete_Some in H as [_ H] ];
  eauto.

Lemma stop_timers (r : ReactState) (s : State) (id : TimerId) (cb : ReactState) :
  timers (stopAllStreamsAndProcessing r s) !! id = Some cb -> timers s !! id = Some cb.
Proof.
  destruct s as [r0 [el|] c [t|] [[ms mm []]|] ch st ns tm nt q pd];
    unfold stopAllStreamsAndProcessing; destruct (stream r);
    lifecycle_cbv; intros H; timers_lookup H.
Qed.

Lemma reset_for_start_timers (s : State) :
  timers (reset_for_start s) = timers s /\ pending (reset_for_start s) = pending s.
Proof. split; reflexivity. Qed.

Lemma start_after_timers (r : ReactState) (outcome : MediaOutcome) (s : State)
    (id : TimerId) (cb : ReactState) :
  (timers (startCamera_after r outcome s) !! id = Some cb ->
   cb = r \/ timers s !! id = Some cb)
  /\ (timers (startScreenShare_after r outcome s) !! id = Some cb ->
      cb = r \/ timers s !! id = Some cb).
Proof.
  destruct outcome as [tracks|t].
  - split.
    + destruct s as [r0 [el|] c [t|] m ch st ns tm nt q pd]; lifecycle_cbv;
        intros H; timers_lookup H.
    + unfold startScreenShare_after. destruct (set_onended r tracks) as [tracks'|].
      * destruct s as [r0 [el|] c [t|] m ch st ns tm nt q pd]; lifecycle_cbv;
          intros H; timers_lookup H.
      * destruct (addStream tracks s) as [mediaStream s1] eqn:E. cbv zeta.
        intros H. apply stop_timers in H. right. revert H.
        unfold addStream in E. injection E as <- <-.
        destruct s as [r0 [el|] c p m ch st ns tm nt q pd]; lifecycle_cbv; auto.
  - split; intros H; right; [unfold startCamera_after in H
                            |unfold startScreenShare_after in H];
      cbv zeta in H; apply stop_timers in H; exact H.
Qed.

Lemma setError_frame (e : option JsString) (s : State) :
  timers (setError e s) = timers s /\ pending (setError e s) = pending s.
Proof. split; reflexivity. Qed.

Lemma stop_pending (r : ReactState) (s : State) :
  pending (stopAllStreamsAndProcessing r s) = pending s.
Proof. apply stop_summary. Qed.

Lemma start_after_pending (r : ReactState) (outcome : MediaOutcome) (s : State) :
  pending (startCamera_after r outcome s) = pending s
  /\ pending (startScreenShare_after r outcome s) = pending s.
Proof.
  destruct outcome as [tracks|t].
  - split.
    + destruct s as [r0 [el|] c [t|] m ch st ns tm nt q pd]; lifecycle_cbv; reflexivity.
    + unfold startScreenShare_after. destruct (set_onended r tracks) as [tracks'|].
      * destruct s as [r0 [el|] c [t|] m ch st ns tm nt q pd]; lifecycle_cbv;
          reflexivity.
      * destruct (addStream tracks s) as [mediaStream s1] eqn:E. cbv zeta.
        rewrite stop_pending.
        unfold addStream in E. injection E as <- <-.
        destruct s as [r0 [el|] c p m ch st ns tm nt q pd]; lifecycle_cbv; reflexivity.
  - split; [unfold startCamera_after|unfold startScreenShare_after]; cbv zeta;
      rewrite stop_pending; reflexivity.
Qed.

Lemma speech_effect_frame (pf : Platform) (prev : ReactState) (s : State) :
  timers (speech_effect pf prev s) = timers s
  /\ pending (speech_effect pf prev s) = pending s.
Proof.
  unfold speech_effect. cbv zeta.
  destruct (eqb (currentSpokenText prev) (currentSpokenText (react s))
            && same_speakText prev (react s)); [split; reflexivity|].
  destruct (truthy (currentSpokenText (react s))); [|split; reflexivity].
  unfold speakText.
  destruct (negb (truthy (trim (currentSpokenText (react s))))); [split; reflexivity|].
  destruct (utteranceThrows pf); split; reflexivity.
Qed.

Lemma loadVoices_frame (pf : Platform) (voices : list Voice) (s : State) :
  timers (loadVoices pf voices s) = timers s
  /\ pending (loadVoices pf voices s) = pending s.
Proof.
  unfold loadVoices. cbv zeta.
  destruct (truthy (currentSpokenText (react (setAvailableVoices voices s))));
    [|split; reflexivity].
  unfold speakText.
  destruct (negb (truthy (trim (currentSpokenText (react (setAvailableVoices voices s))))));
    [split; reflexivity|].
  destruct (utteranceThrows pf); split; reflexivity.
Qed.

Lemma resume_frame (cb : ReactState) (result : Completion JsString) (s : State) :
  timers (captureFrameAndProcess_resume cb result s) = timers s
  /\ pending (captureFrameAndProcess_resume cb result s) = pending s.
Proof.
  unfold captureFrameAndProcess_resume.
  destruct result as [T|[msg|]];
    [destruct (truthy T && negb (eqb (trim T) empty));
     [destruct (negb (eqb (trim T) (trim (currentSpokenText cb))))|]| |];
    split; reflexivity.
Qed.

Lemma handleStartRecording_frame (pf : Platform) (r : ReactState) (s : State) :
  timers (handleStartRecording pf r s) = timers s
  /\ pending (handleStartRecording pf r s) = pending s.
Proof.
  unfold handleStartRecording.
  destruct (stream r) as [id|], (activeInputType r); try (split; reflexivity);
    destruct (isRecording r); try (split; reflexivity);
    destruct (find (isTypeSupported pf) mimeTypes) as [mt|]; try (split; reflexivity);
    destruct (recorderConstructorThrows pf); try (split; reflexivity);
    destruct (recorderStartThrows pf); split; reflexivity.
Qed.

(** Every interval of the new state is one of the old state, or was
    installed by the operation with the callback the operation carries. *)
Lemma apply_op_timers (pf : Platform) (op : Op) (s : State) (id : TimerId)
    (cb : ReactState) :
  timers_inactive s -> starts_from_inactive op ->
  timers (apply_op pf op s) !! id = Some cb -> activeInputType cb = none.
Proof.
  intros Hs Hop H.
  assert (Hold : timers s !! id = Some cb -> activeInputType cb = none) by apply Hs.
  destruct op; cbn [apply_op] in H; cbn [starts_from_inactive] in Hop.
  - apply Hold. unfold startCamera_before in H. cbv zeta in H.
    rewrite (proj1 (reset_for_start_timers _)) in H.
    destruct (isScreenSharingOn r); [apply stop_timers in H|]; exact H.
  - apply (proj1 (start_after_timers r outcome s id cb)) in H as [-> | H]; auto.
  - apply Hold. unfold startScreenShare_before in H. cbv zeta in H.
    rewrite (proj1 (reset_for_start_timers _)) in H.
    destruct (isCameraOn r); [apply stop_timers in H|]; exact H.
  - apply (proj2 (start_after_timers r outcome s id cb)) in H as [-> | H]; auto.
  - apply Hold, (stop_timers r s), H.
  - apply Hold, (stop_timers r s). unfold screen_onended in H. cbv zeta in H.
    rewrite (proj1 (setError_frame _ _)) in H. exact H.
  - apply Hold. unfold tick in H. destruct (timers s !! id0) as [cb0|]; [|exact H].
    rewrite (proj1 (speech_effect_frame _ _ _)) in H.
    rewrite (proj1 (captureFrameAndProcess_frame cb0 s)) in H. exact H.
  - apply Hold. unfold settle in H. destruct (pending s !! k) as [call|]; [|exact H].
    cbv zeta in H.
    rewrite (proj1 (speech_effect_frame _ _ _)), (proj1 (resume_frame _ _ _)) in H.
    exact H.
  - apply Hold. rewrite (proj1 (handleStartRecording_frame pf r s)) in H. exact H.
  - apply Hold. revert H. unfold handleStopRecording, handleStopRecordingInternal.
    destruct s as [r0 v c p [[ms mm []]|] ch st ns tm nt q pd]; auto.
  - apply Hold. revert H. unfold ondataavailable.
    destruct (0 <? blobSize data)%N; auto.
  - apply Hold, H.
  - apply Hold, H.
  - apply Hold. revert H. unfold video_playing. destruct (video s); auto.
  - apply Hold, H.
  - apply Hold. unfold changeSpeechRate in H.
    rewrite (proj1 (speech_effect_frame _ _ _)) in H. exact H.
  - apply Hold. unfold changeVoice in H.
    rewrite (proj1 (speech_effect_frame _ _ _)) in H. exact H.
  - apply Hold. rewrite (proj1 (loadVoices_frame _ _ _)) in H. exact H.
  - apply Hold, H.
Qed.

Lemma apply_op_in_flight (pf : Platform) (op : Op) (s : State) :
  timers_inactive s -> (in_flight (apply_op pf op s) <= in_flight s)%nat.
Proof.
  intros Hs. unfold in_flight. destruct op; cbn [apply_op].
  - unfold startCamera_before. cbv zeta.
    rewrite (proj2 (reset_for_start_timers _)).
    destruct (isScreenSharingOn r); [rewrite stop_pending|]; lia.
  - rewrite (proj1 (start_after_pending r outcome s)). lia.
  - unfold startScreenShare_before. cbv zeta.
    rewrite (proj2 (reset_for_start_timers _)).
    destruct (isCameraOn r); [rewrite stop_pending|]; lia.
  - rewrite (proj2 (start_after_pending r outcome s)). lia.
  - rewrite stop_pending. lia.
  - unfold screen_onended. cbv zeta.
    rewrite (proj2 (setError_frame _ _)), stop_pending. lia.
  - destruct (timers s !! id) as [cb|] eqn:E.
    + rewrite (tick_is_callback pf id cb s E).
      rewrite (captureFrameAndProcess_returns cb s); [lia|].
      left. apply (Hs id cb E).
    + unfold tick. rewrite E. lia.
  - unfold settle. destruct (pending s !! k) as [call|] eqn:E; [|lia].
    cbv zeta.
    rewrite (proj2 (speech_effect_frame _ _ _)), (proj2 (resume_frame _ _ _)).
    change (length (delete k (pending s)) <= length (pending s))%nat.
    rewrite length_delete by eauto. lia.
  - rewrite (proj2 (handleStartRecording_frame pf r s)). lia.
  - unfold handleStopRecording, handleStopRecordingInternal.
    destruct s as [r0 v c p [[ms mm []]|] ch st ns tm nt q pd]; simpl; lia.
  - unfold ondataavailable. destruct (0 <? blobSize data)%N; simpl; lia.
  - simpl. lia.
  - simpl. lia.
  - unfold video_playing. destruct (video s); simpl; lia.
  - simpl. lia.
  - unfold changeSpeechRate. rewrite (proj2 (speech_effect_frame _ _ _)). simpl. lia.
  - unfold changeVoice. rewrite (proj2 (speech_effect_frame _ _ _)). simpl. lia.
  - rewrite (proj2 (loadVoices_frame _ _ _)). lia.
  - simpl. lia.
Qed.

Lemma run_never_polls (pf : Platform) (ops : list Op) :
  Forall starts_from_inactive ops ->
  forall s, timers_inactive s ->
            (in_flight (run pf ops s) <= in_flight s)%nat
            /\ timers_inactive (run pf ops s).
Proof.
  induction 1 as [|op ops Hop Hops IH]; intros s Hs; simpl; [split; [lia|exact Hs]|].
  assert (Hs' : timers_inactive (apply_op pf op s)).
  { intros id cb H. apply (apply_op_timers pf op s id cb Hs Hop H). }
  destruct (IH _ Hs') as [Hle Hinv]. split; [|exact Hinv].
  pose proof (apply_op_in_flight pf op s Hs). lia.
Qed.

(** When every start is made by a callback created while no input was
    active, no recognition call is ever started: in every run from the
    mounted component the number of calls in flight stays zero, because
    every interval holds a callback that closed over
    [activeInputType = none]. *)
Theorem starts_from_inactive_never_recognise (pf : Platform) (ops : list Op) :
  Forall starts_from_inactive ops ->
  in_flight (run pf ops mounted) = 0%nat
  /\ timers_inactive (run pf ops mounted).
Proof.
  intros H.
  assert (H0 : timers_inactive mounted).
  { intros id cb Hl. vm_compute in Hl. discriminate Hl. }
  destruct (run_never_polls pf ops H mounted H0) as [Hle Hinv].
  split; [|exact Hinv]. change (in_flight mounted) with 0%nat in Hle. lia.
Qed.

Lemma starts_from_inactive_never_recognise_witness :
  in_flight (run Scenario.browser
               [StartCameraBefore initialRender;
                StartCameraAfter initialRender (Granted [Scenario.videoTrack]);
                VideoPlaying 640 480 (js "Y2FtZXJh");
                TimerTick 1%positive; TimerTick 1%positive] mounted) = 0%nat
  /\ timers_inactive (run Scenario.browser
                        [StartCameraBefore initialRender;
                         StartCameraAfter initialRender (Granted [Scenario.videoTrack]);
                         VideoPlaying 640 480 (js "Y2FtZXJh");
                         TimerTick 1%positive; TimerTick 1%positive] mounted).
Proof.
  apply (starts_from_inactive_never_recognise Scenario.browser).
  repeat constructor.
Defined.

(** A source button that is enabled either stops the session or starts
    from a render in which no input is active: with agreeing flags, the
    camera button is disabled while the screen is shared, and the screen
    button while the camera is on. *)
Theorem enabled_buttons_start_from_inactive (r : ReactState) (outcome : MediaOutcome)
    (s : State) :
  flags_agree r ->
  (cameraButtonDisabled r = false ->
   (isCameraOn r = true
    /\ handleToggleCamera r outcome s = stopAllStreamsAndProcessing r s)
   \/ (activeInputType r = none
       /\ handleToggleCamera r outcome s = startCamera r outcome s))
  /\ (screenShareButtonDisabled r = false ->
      (isScreenSharingOn r = true
       /\ handleToggleScreenShare r outcome s = stopAllStreamsAndProcessing r s)
      \/ (activeInputType r = none
          /\ handleToggleScreenShare r outcome s = startScreenShare r outcome s)).
Proof.
  unfold flags_agree, cameraButtonDisabled, screenShareButtonDisabled,
    handleToggleCamera, handleToggleScreenShare.
  destruct (activeInputType r); intros [-> ->]; simpl; split; intros H;
    try discriminate H; auto.
Qed.

Lemma enabled_buttons_start_from_inactive_witness :
  (cameraButtonDisabled initialRender = false ->
   (isCameraOn initialRender = true
    /\ handleToggleCamera initialRender (Granted [Scenario.videoTrack]) mounted
       = stopAllStreamsAndProcessing initialRender mounted)
   \/ (activeInputType initialRender = none
       /\ handleToggleCamera initialRender (Granted [Scenario.videoTrack]) mounted
          = startCamera initialRender (Granted [Scenario.videoTrack]) mounted))
  /\ (screenShareButtonDisabled initialRender = false ->
      (isScreenSharingOn initialRender = true
       /\ handleToggleScreenShare initialRender (Granted [Scenario.videoTrack]) mounted
          = stopAllStreamsAndProcessing initialRender mounted)
      \/ (activeInputType initialRender = none
          /\ handleToggleScreenShare initialRender (Granted [Scenario.videoTrack]) mounted
             = startScreenShare initialRender (Granted [Scenario.videoTrack]) mounted)).
Proof.
  apply (enabled_buttons_start_from_inactive initialRender (Granted [Scenario.videoTrack])
           mounted).
  split; reflexivity.
Defined.

(** *** The cleanup of the unmount effect *)

Lemma stop_streams (r : ReactState) (s : State) :
  streams (stopAllStreamsAndProcessing r s)
  = match stream r with
    | Some id => alter (map track_stop) id (streams s)
    | None => streams s
    end.
Proof.
  destruct s as [r0 [el|] c [t|] [[ms mm []]|] ch st ns tm nt q pd];
    unfold stopAllStreamsAndProcessing; destruct (stream r);
    lifecycle_cbv; reflexivity.
Qed.

Lemma stop_detaches (r : ReactState) (s : State) :
  processingIntervalRef (stopAllStreamsAndProcessing r s) = None
  /\ isCameraOn (react (stopAllStreamsAndProcessing r s)) = false
  /\ (forall id, processingIntervalRef s = Some id ->
       timers (stopAllStreamsAndProcessing r s) !! id = None)
  /\ (forall el, video (stopAllStreamsAndProcessing r s) = Some el -> srcObject el = None).
Proof.
  destruct s as [r0 [el|] c [t|] [[ms mm []]|] ch st ns tm nt q pd];
    unfold stopAllStreamsAndProcessing; destruct (stream r);
    lifecycle_cbv; repeat split;
    try (intros ? [= <-]; first [apply lookup_delete_eq | reflexivity]);
    try (intros ? ?; discriminate).
Qed.

Lemma startCamera_after_granted (r : ReactState) (tracks : list Track) (s : State) :
  stream (react (startCamera_after r (Granted tracks) s)) = Some (nextStream s)
  /\ activeInputType (react (startCamera_after r (Granted tracks) s)) = camera
  /\ streams (startCamera_after r (Granted tracks) s) !! nextStream s = Some tracks.
Proof.
  destruct s as [r0 [el|] c [t|] m ch st ns tm nt q pd]; lifecycle_cbv;
    repeat split; apply lookup_insert_eq.
Qed.

(** React runs the cleanup of the previous render when the stream changed. *)
Lemma cleanup_effect_runs (prev : ReactState) (s : State) :
  option_eqb Nat.eqb (stream prev) (stream (react s)) = false ->
  fst (cleanup_effect prev s) = stopAllStreamsAndProcessing prev s.
Proof.
  intros H. unfold cleanup_effect, same_cleanup_deps. rewrite H. reflexivity.
Qed.

(** What React does right after a granted camera start.  The render that
    preceded the grant held no stream, so the grant changes [stream], hence
    [stopAllStreamsAndProcessing], hence a dependency of the effect of lines
    320-327: committing the new render runs the cleanup of the old one.
    That cleanup stops the session it finds: no input is active any more,
    the interval just installed is cleared and the video element is
    detached, while the tracks of the new stream, which the old callback
    does not hold, stay as granted.  They are stopped by the cleanup of the
    next commit, which belongs to the render that held the stream. *)
Theorem cleanup_stops_the_session_just_started (prev r : ReactState)
    (tracks : list Track) (s : State) :
  stream prev = None ->
  let started := startCamera_after r (Granted tracks) s in
  let torn := fst (cleanup_effect prev started) in
  let settled := fst (cleanup_effect (react started) torn) in
  (activeInputType (react started) = camera
   /\ processingIntervalRef started = Some (nextTimer s))
  /\ activeInputType (react torn) = none
  /\ isCameraOn (react torn) = false
  /\ stream (react torn) = None
  /\ processingIntervalRef torn = None
  /\ timers torn !! nextTimer s = None
  /\ (forall el, video torn = Some el -> srcObject el = None)
  /\ streams torn !! nextStream s = Some tracks
  /\ streams settled !! nextStream s = Some (map track_stop tracks)
  /\ activeInputType (react settled) = none.
Proof.
  intros Hprev started torn settled.
  destruct (startCamera_after_granted r tracks s) as (Hstream & Hait & Htracks).
  destruct (startCamera_after_installs r tracks s) as (Href & _).
  fold started in Hstream, Hait, Htracks, Href.
  assert (Etorn : torn = stopAllStreamsAndProcessing prev started).
  { apply cleanup_effect_runs. rewrite Hprev, Hstream. reflexivity. }
  destruct (stop_summary prev started) as (_ & _ & Ha & Hs).
  destruct (stop_detaches prev started) as (Hp & Hc & Ht & Hv).
  pose proof (stop_streams prev started) as Hst. rewrite Hprev in Hst.
  rewrite <- Etorn in Ha, Hs, Hp, Hc, Ht, Hv, Hst.
  assert (Esettled : settled = stopAllStreamsAndProcessing (react started) torn).
  { apply cleanup_effect_runs. rewrite Hstream, Hs. reflexivity. }
  pose proof (stop_streams (react started) torn) as Hst2. rewrite Hstream in Hst2.
  destruct (stop_summary (react started) torn) as (_ & _ & Ha2 & _).
  rewrite <- Esettled in Hst2, Ha2.
  clearbody started torn settled.
  repeat match goal with |- _ /\ _ => split end; try assumption.
  - apply Ht, Href.
  - rewrite Hst. exact Htracks.
  - rewrite Hst2, lookup_alter_eq, Hst, Htracks. reflexivity.
Qed.

Lemma cleanup_stops_the_session_just_started_witness :
  activeInputType
    (react (fst (cleanup_effect initialRender
                   (startCamera_after initialRender (Granted [Scenario.videoTrack])
                      mounted)))) = none
  /\ streams (fst (cleanup_effect initialRender
                     (startCamera_after initialRender (Granted [Scenario.videoTrack])
                        mounted))) !! 0%nat
     = Some [Scenario.videoTrack].
Proof.
  pose proof (cleanup_stops_the_session_just_started initialRender initialRender
                [Scenario.videoTrack] mounted) as H.
  cbv zeta in H.
  destruct H as (_ & H2 & _ & _ & _ & _ & _ & H8 & _); [reflexivity|].
  split; [exact H2|exact H8].
Defined.

(** *** Recording *)

Lemma handleStartRecording_while_recording (pf : Platform) (r : ReactState)
    (s : State) (id : StreamId) :
  stream r = Some id ->
  activeInputType r = camera \/ activeInputType r = screen ->
  isRecording r = true ->
  handleStartRecording pf r s = s.
Proof.
  intros Hs Ha Hr. unfold handleStartRecording. rewrite Hs, Hr.
  destruct Ha as [-> | ->]; reflexivity.
Qed.

Lemma handleStartRecording_keeps_source (pf : Platform) (r : ReactState) (s : State) :
  stream (react (handleStartRecording pf r s)) = stream (react s)
  /\ activeInputType (react (handleStartRecording pf r s)) = activeInputType (react s).
Proof.
  unfold handleStartRecording.
  destruct (stream r) as [id|], (activeInputType r); try (split; reflexivity);
    destruct (isRecording r); try (split; reflexivity);
    destruct (find (isTypeSupported pf) mimeTypes) as [mt|]; try (split; reflexivity);
    destruct (recorderConstructorThrows pf); try (split; reflexivity);
    destruct (recorderStartThrows pf); split; reflexivity.
Qed.

Lemma find_first_supported (supported : JsString -> bool) (before after : list JsString)
    (mt : JsString) :
  Forall (fun m => supported m = false) before ->
  supported mt = true ->
  find supported (before ++ mt :: after) = Some mt.
Proof.
  intros Hb Hm. induction Hb as [|m before Hm' _ IH]; simpl.
  - rewrite Hm. reflexivity.
  - rewrite Hm'. exact IH.
Qed.

(** A recording starts with the first type of the preference list that the
    browser supports: the recorder is created on the callback's stream with
    that type and is recording, the chunk buffer is empty, and the previous
    artifact and recording error are cleared. *)
Theorem start_recording_uses_first_supported_type (pf : Platform) (r : ReactState)
    (s : State) (id : StreamId) (before after : list JsString) (mt : JsString) :
  stream r = Some id ->
  activeInputType r = camera \/ activeInputType r = screen ->
  isRecording r = false ->
  mimeTypes = before ++ mt :: after ->
  Forall (fun m => isTypeSupported pf m = false) before ->
  isTypeSupported pf mt = true ->
  recorderConstructorThrows pf = false ->
  recorderStartThrows pf = false ->
  let s' := handleStartRecording pf r s in
  mediaRecorderRef s' = Some {| recStream := id; recMimeType := mt; recState := recording |}
  /\ isRecording (react s') = true
  /\ recordedChunksRef s' = []
  /\ videoRecordUrl (react s') = None
  /\ recordingError (react s') = None.
Proof.
  intros Hs Ha Hr Hl Hb Hm Hc Hst. unfold handleStartRecording.
  rewrite Hs, Hr, Hl, (find_first_supported _ before after mt Hb Hm), Hc, Hst.
  destruct s as [r0 v c p m ch st ns tm nt q pd].
  destruct Ha as [-> | ->]; lifecycle_cbv; repeat split.
Qed.

Lemma start_recording_uses_first_supported_type_witness :
  mediaRecorderRef (handleStartRecording Scenario.browser (react Scenario.switched)
                      Scenario.switched)
  = Some {| recStream := 1%nat; recMimeType := js "video/webm"; recState := recording |}
  /\ isRecording (react (handleStartRecording Scenario.browser (react Scenario.switched)
                           Scenario.switched)) = true.
Proof.
  pose proof (start_recording_uses_first_supported_type Scenario.browser
                (react Scenario.switched) Scenario.switched 1%nat
                [js "video/webm;codecs=vp9,opus"; js "video/webm;codecs=vp8,opus"]
                [js "video/mp4"] (js "video/webm")) as H.
  cbv zeta in H.
  destruct H as (H1 & H2 & _).
  - reflexivity.
  - left. reflexivity.
  - reflexivity.
  - reflexivity.
  - repeat constructor.
  - reflexivity.
  - reflexivity.
  - reflexivity.
  - split; [exact H1|exact H2].
Defined.

(** Starting a recording twice without stopping in between: once the first
    start has succeeded and its render is committed, the second start
    changes nothing, so the one recorder of the first start stays the only
    one against the stream. *)
Theorem start_recording_twice_keeps_one_recorder (pf : Platform) (s : State)
    (id : StreamId) (before after : list JsString) (mt : JsString) :
  stream (react s) = Some id ->
  activeInputType (react s) = camera \/ activeInputType (react s) = screen ->
  isRecording (react s) = false ->
  mimeTypes = before ++ mt :: after ->
  Forall (fun m => isTypeSupported pf m = false) before ->
  isTypeSupported pf mt = true ->
  recorderConstructorThrows pf = false ->
  recorderStartThrows pf = false ->
  let s' := handleStartRecording pf (react s) s in
  handleStartRecording pf (react s') s' = s'
  /\ mediaRecorderRef s'
     = Some {| recStream := id; recMimeType := mt; recState := recording |}.
Proof.
  intros Hs Ha Hr Hl Hb Hm Hc Hst s'.
  destruct (handleStartRecording_keeps_source pf (react s) s) as [Es Ea].
  fold s' in Es, Ea.
  assert (Hfirst : isRecording (react s') = true
                   /\ mediaRecorderRef s'
                      = Some {| recStream := id; recMimeType := mt;
                                recState := recording |}).
  { subst s'. clear Es Ea. unfold handleStartRecording.
    rewrite Hs, Hr, Hl, (find_first_supported _ before after mt Hb Hm), Hc, Hst.
    destruct s as [r0 v c p m ch st ns tm nt q pd].
    destruct Ha as [-> | ->]; lifecycle_cbv; split; reflexivity. }
  destruct Hfirst as [Hrec Href]. split; [|exact Href].
  apply (handleStartRecording_while_recording pf (react s') s' id).
  - rewrite Es. exact Hs.
  - rewrite Ea. exact Ha.
  - exact Hrec.
Qed.

Lemma start_recording_twice_keeps_one_recorder_witness :
  handleStartRecording Scenario.browser
    (react (handleStartRecording Scenario.browser (react Scenario.switched)
              Scenario.switched))
    (handleStartRecording Scenario.browser (react Scenario.switched) Scenario.switched)
  = handleStartRecording Scenario.browser (react Scenario.switched) Scenario.switched.
Proof.
  pose proof (start_recording_twice_keeps_one_recorder Scenario.browser
                Scenario.switched 1%nat
                [js "video/webm;codecs=vp9,opus"; js "video/webm;codecs=vp8,opus"]
                [js "video/mp4"] (js "video/webm")) as H.
  cbv zeta in H.
  destruct H as (H1 & _).
  - reflexivity.
  - left. reflexivity.
  - reflexivity.
  - reflexivity.
  - repeat constructor.
  - reflexivity.
  - reflexivity.
  - reflexivity.
  - exact H1.
Defined.

(** When the browser supports none of the four types, no recorder is
    created and [isRecording] keeps its value; the unsupported-format error
    is shown.  The previous artifact and the chunk buffer have been cleared
    by then. *)
Theorem start_recording_without_supported_type (pf : Platform) (r : ReactState)
    (s : State) (id : StreamId) :
  stream r = Some id ->
  activeInputType r = camera \/ activeInputType r = screen ->
  isRecording r = false ->
  Forall (fun m => isTypeSupported pf m = false) mimeTypes ->
  let s' := handleStartRecording pf r s in
  recordingError (react s') = Some NO_MIME_TYPE
  /\ mediaRecorderRef s' = mediaRecorderRef s
  /\ isRecording (react s') = isRecording (react s)
  /\ videoRecordUrl (react s') = None
  /\ recordedChunksRef s' = [].
Proof.
  intros Hs Ha Hr Hall. unfold handleStartRecording. rewrite Hs, Hr.
  assert (Hf : find (isTypeSupported pf) mimeTypes = None).
  { induction Hall as [|m l Hm _ IH]; simpl; [reflexivity|]. rewrite Hm. exact IH. }
  rewrite Hf.
  destruct s as [r0 v c p m ch st ns tm nt q pd].
  destruct Ha as [-> | ->]; lifecycle_cbv; repeat split.
Qed.

Lemma start_recording_without_supported_type_witness :
  recordingError
    (react (handleStartRecording
              {| API_KEY := None; undefinedTrimMessage := empty;
                 isTypeSupported := fun _ => false; utteranceThrows := false;
                 recorderConstructorThrows := false; recorderStartThrows := false |}
              (react Scenario.switched) Scenario.switched))
  = Some NO_MIME_TYPE.
Proof.
  pose proof (start_recording_without_supported_type
                {| API_KEY := None; undefinedTrimMessage := empty;
                   isTypeSupported := fun _ => false; utteranceThrows := false;
                   recorderConstructorThrows := false; recorderStartThrows := false |}
                (react Scenario.switched) Scenario.switched 1%nat) as H.
  cbv zeta in H.
  destruct H as (H1 & _).
  - reflexivity.
  - left. reflexivity.
  - reflexivity.
  - repeat constructor.
  - exact H1.
Defined.

(** When creating or starting the recorder throws, the failure is shown and
    the session is not recording. *)
Theorem start_recording_that_throws_is_not_recording (pf : Platform) (r : ReactState)
    (s : State) (id : StreamId) (mt : JsString) :
  stream r = Some id ->
  activeInputType r = camera \/ activeInputType r = screen ->
  isRecording r = false ->
  find (isTypeSupported pf) mimeTypes = Some mt ->
  recorderConstructorThrows pf = true \/ recorderStartThrows pf = true ->
  let s' := handleStartRecording pf r s in
  recordingError (react s') = Some FAILED_TO_START
  /\ isRecording (react s') = false
  /\ (forall m, mediaRecorderRef s' = Some m ->
       mediaRecorderRef s = Some m \/ recState m = inactive).
Proof.
  intros Hs Ha Hr Hf Hthrow. unfold handleStartRecording. rewrite Hs, Hr, Hf.
  destruct s as [r0 v c p m ch st ns tm nt q pd].
  destruct (recorderConstructorThrows pf), (recorderStartThrows pf);
    destruct Hthrow as [Ht|Ht]; try discriminate Ht;
    destruct Ha as [-> | ->]; lifecycle_cbv; repeat split; auto;
    intros m' [= <-]; right; reflexivity.
Qed.

Lemma start_recording_that_throws_is_not_recording_witness :
  recordingError
    (react (handleStartRecording
              {| API_KEY := None; undefinedTrimMessage := empty;
                 isTypeSupported := fun _ => true; utteranceThrows := false;
                 recorderConstructorThrows := false; recorderStartThrows := true |}
              (react Scenario.switched) Scenario.switched))
  = Some FAILED_TO_START.
Proof.
  pose proof (start_recording_that_throws_is_not_recording
                {| API_KEY := None; undefinedTrimMessage := empty;
                   isTypeSupported := fun _ => true; utteranceThrows := false;
                   recorderConstructorThrows := false; recorderStartThrows := true |}
                (react Scenario.switched) Scenario.switched 1%nat
                (js "video/webm;codecs=vp9,opus")) as H.
  cbv zeta in H.
  destruct H as (H1 & _).
  - reflexivity.
  - left. reflexivity.
  - reflexivity.
  - reflexivity.
  - right. reflexivity.
  - exact H1.
Defined.

Lemma deliver_chunks (chunks : list Blob) :
  forall s,
    recordedChunksRef (deliver chunks s)
    = recordedChunksRef s ++ List.filter (fun b => 0 <? blobSize b)%N chunks
    /\ react (deliver chunks s) = react s.
Proof.
  induction chunks as [|b chunks IH]; intros s; simpl.
  - rewrite app_nil_r. split; reflexivity.
  - destruct (IH (ondataavailable b s)) as [Hc Hr]. rewrite Hc, Hr.
    unfold ondataavailable. destruct (0 <? blobSize b)%N; simpl.
    + rewrite <- app_assoc. split; reflexivity.
    + split; reflexivity.
Qed.

Lemma size_of_nonempty_chunks (chunks : list Blob) :
  fold_right N.add 0%N (map blobSize (List.filter (fun b => 0 <? blobSize b)%N chunks))
  = fold_right N.add 0%N (map blobSize chunks).
Proof.
  induction chunks as [|b chunks IH]; simpl; [reflexivity|].
  destruct (0 <? blobSize b)%N eqn:E; simpl; rewrite IH; [reflexivity|].
  apply N.ltb_ge in E. lia.
Qed.

(** From an empty buffer, the chunks the recorder delivers are kept in
    order, empty ones left out, and the stop handler turns them into one
    artifact of the recorder's type whose size is the sum of the sizes
    delivered, exposes its URL and empties the buffer. *)
Theorem recording_artifact_holds_all_chunks (chunks : list Blob)
    (supportedMimeType : JsString) (s : State) :
  recordedChunksRef s = [] ->
  let s' := onstop supportedMimeType (deliver chunks s) in
  recordedChunksRef (deliver chunks s) = List.filter (fun b => 0 <? blobSize b)%N chunks
  /\ videoRecordUrl (react s')
     = Some (createObjectURL
               {| blobSize := fold_right N.add 0%N (map blobSize chunks);
                  blobType := supportedMimeType |})
  /\ recordedChunksRef s' = []
  /\ isRecording (react s') = isRecording (react s).
Proof.
  intros Hempty s'. subst s'.
  destruct (deliver_chunks chunks s) as [Hc Hr]. rewrite Hempty in Hc. simpl in Hc.
  split; [exact Hc|]. unfold onstop. cbv zeta. rewrite Hc, size_of_nonempty_chunks.
  destruct (deliver chunks s) as [r0 v c p m ch st ns tm nt q pd]. simpl in Hr.
  subst r0. repeat split.
Qed.

Lemma recording_artifact_holds_all_chunks_witness :
  recordedChunksRef
    (deliver [{| blobSize := 3; blobType := js "video/webm" |};
              {| blobSize := 0; blobType := js "video/webm" |};
              {| blobSize := 4; blobType := js "video/webm" |}] Scenario.filming)
  = [{| blobSize := 3; blobType := js "video/webm" |};
     {| blobSize := 4; blobType := js "video/webm" |}]
  /\ videoRecordUrl
       (react (onstop (js "video/webm")
                 (deliver [{| blobSize := 3; blobType := js "video/webm" |};
                           {| blobSize := 0; blobType := js "video/webm" |};
                           {| blobSize := 4; blobType := js "video/webm" |}]
                    Scenario.filming)))
     = Some (createObjectURL {| blobSize := 7; blobType := js "video/webm" |}).
Proof.
  pose proof (recording_artifact_holds_all_chunks
                [{| blobSize := 3; blobType := js "video/webm" |};
                 {| blobSize := 0; blobType := js "video/webm" |};
                 {| blobSize := 4; blobType := js "video/webm" |}]
                (js "video/webm") Scenario.filming) as H.
  cbv zeta in H.
  destruct H as (H1 & H2 & _); [reflexivity|].
  split; [exact H1|exact H2].
Defined.

(** *** Speech settings *)

(** An utterance carries the text and the rate of the render that speaks.
    A voice it is given is one of the available voices and has the selected
    URI; it is given none only when no URI is selected, the selected URI is
    empty, or no available voice has it, and then the platform default
    speaks. *)
Theorem utterance_voice_is_selected_or_default (r : ReactState) (t : JsString) :
  text (newUtterance r t) = t
  /\ rate (newUtterance r t) = speechRate r
  /\ match voice (newUtterance r t) with
     | Some v => In v (availableVoices r) /\ selectedVoiceURI r = Some (voiceURI v)
     | None =>
         forall uri, selectedVoiceURI r = Some uri ->
                     uri = empty
                     \/ forall v, In v (availableVoices r) -> voiceURI v <> uri
     end.
Proof.
  split; [reflexivity|]. split; [reflexivity|].
  unfold newUtterance, selectedVoice. cbn [voice].
  destruct (selectedVoiceURI r) as [uri|]; [|intros ? H; discriminate H].
  destruct (truthy uri) eqn:Et.
  - destruct (find (fun v => eqb (voiceURI v) uri) (availableVoices r)) as [v|] eqn:Ef.
    + apply find_some in Ef as [Hin He]. apply eqb_eq in He. subst uri.
      split; [exact Hin|reflexivity].
    + intros uri' [= <-]. right. intros v Hin Heq.
      pose proof (find_none _ _ Ef v Hin) as Hn. cbv beta in Hn.
      rewrite Heq, eqb_refl in Hn. discriminate Hn.
  - intros uri' [= <-]. left. apply truthy_false, Et.
Qed.

Lemma speech_effect_fires_on_settings (pf : Platform) (prev : ReactState) (s : State) :
  same_speakText prev (react s) = false ->
  truthy (currentSpokenText (react s)) = true ->
  speech_effect pf prev s = speakText pf (react s) (currentSpokenText (react s)) s.
Proof.
  intros H1 H2. unfold speech_effect. rewrite H1, H2, andb_false_r. reflexivity.
Qed.

(** Moving the rate slider while a text is current speaks that text again
    from the start, at the new rate: the effect of lines 85-89 depends on
    [speakText], which is a new function whenever the rate changes. *)
Theorem changing_the_rate_speaks_again (pf : Platform) (v : QArith_base.Q) (s : State) :
  currentSpokenText (react s) <> empty ->
  trim (currentSpokenText (react s)) = currentSpokenText (react s) ->
  QArith_base.Qeq_bool (speechRate (react s)) v = false ->
  utteranceThrows pf = false ->
  speechQueue (changeSpeechRate pf v s)
  = [{| text := currentSpokenText (react s); rate := v;
        voice := selectedVoice (react s) |}]
  /\ currentSpokenText (react (changeSpeechRate pf v s)) = currentSpokenText (react s).
Proof.
  intros Hne Htrim Hrate Hthrow.
  assert (Ht : truthy (currentSpokenText (react s)) = true).
  { destruct (currentSpokenText (react s)); [contradiction|reflexivity]. }
  unfold changeSpeechRate.
  rewrite speech_effect_fires_on_settings.
  - rewrite speakText_speaks; [|change (truthy (trim (currentSpokenText (react s))) = true);
                                rewrite Htrim; exact Ht|exact Hthrow].
    destruct s as [r0 vd c p m ch st ns tm nt q pd]. split; reflexivity.
  - unfold same_speakText.
    change (speechRate (react (setSpeechRate v s))) with v. rewrite Hrate. reflexivity.
  - exact Ht.
Qed.

Lemma changing_the_rate_speaks_again_witness :
  speechQueue (changeSpeechRate Scenario.browser (QArith_base.Qmake 3 2) Scenario.reading)
  = [{| text := js "A"; rate := QArith_base.Qmake 3 2; voice := None |}]
  /\ currentSpokenText
       (react (changeSpeechRate Scenario.browser (QArith_base.Qmake 3 2) Scenario.reading))
     = js "A".
Proof.
  apply (changing_the_rate_speaks_again Scenario.browser (QArith_base.Qmake 3 2)
           Scenario.reading).
  - vm_compute. discriminate.
  - vm_compute. reflexivity.
  - vm_compute. reflexivity.
  - reflexivity.
Defined.

(** *** A whole poll cycle *)




End LifecycleFacts.

(** ** The page *)

Module PageFacts.
Import App Lifecycle Page AppFacts LifecycleFacts.







End PageFacts.
